(** * Fleet: MDM commander, software installer runner and config receivers

    A shallow embedding of

    - [server/mdm/apple/commander.go] (package [apple_mdm]): the command
      envelope builders, [EnqueueCommand] and [sendNotifications];
    - [orbit/pkg/installer] (package [installer]): [InstallSoftware],
      [preConditionCheck] and [runInstallerScript];
    - the receiver fan-out of [OrbitClient] exercised by
      [server/service/orbit_client_test.go].

    Go code that talks to injected collaborators (storage, push transport,
    osquery, the Orbit API, the operating system) is written in a small state
    monad.  The state holds the collaborators' own state, which only they
    change, and a log of the calls the embedded code made, which only the
    embedded code extends. *)

From Stdlib Require Import DecimalString.
From Stdlib Require Floats.SpecFloat.
From stdpp Require Import base numbers list strings gmap.

Local Open Scope Z_scope.

(** ** Go values shared by the packages *)

(** The double quote character, for the string literals of the source that
    contain one. *)
Definition dq : string := String (Ascii.ascii_of_nat 34) EmptyString.

(** [error] values.  [errorString] is what [errors.New] and a [fmt.Errorf]
    without [%w] build, [ctxerrWrap msg cause] is [ctxerr.Wrap(ctx, cause, msg)],
    [fmtWrap prefix cause] is [fmt.Errorf(prefix + "%w", cause)], [joinError] is
    [errors.Join] and [APNSDeliveryError] is the struct of commander.go, whose
    [Err] field may hold the nil error. *)
#[local] Unset Elimination Schemes.
Inductive error : Type :=
| errorString (msg : string)
| ctxerrWrap (msg : string) (cause : error)
| fmtWrap (prefix : string) (cause : error)
| joinError (errs : list error)
| APNSDeliveryError (FailedUUIDs : list string) (Err : option error).
#[local] Set Elimination Schemes.

(** Induction over an error and everything it wraps: the premises give the
    property for every element of a joined list and for a delivery error's
    cause when it has one. *)
Fixpoint error_ind (P : error -> Prop)
    (Hs : forall m, P (errorString m))
    (Hc : forall m c, P c -> P (ctxerrWrap m c))
    (Hf : forall m c, P c -> P (fmtWrap m c))
    (Hj : forall es, Forall P es -> P (joinError es))
    (Ha : forall f c, match c with Some x => P x | None => True end ->
                      P (APNSDeliveryError f c))
    (e : error) {struct e} : P e :=
  let rec := error_ind P Hs Hc Hf Hj Ha in
  match e with
  | errorString m => Hs m
  | ctxerrWrap m c => Hc m c (rec c)
  | fmtWrap m c => Hf m c (rec c)
  | joinError es =>
      Hj es ((fix all (l : list error) : Forall P l :=
                match l with
                | [] => List.Forall_nil P
                | x :: r => List.Forall_cons P x r (rec x) (all r)
                end) es)
  | APNSDeliveryError f c =>
      Ha f c
        (match c as c0 return match c0 with Some x => P x | None => True end with
         | Some y => rec y
         | None => I
         end)
  end.

(** [ctxerr.Wrap] hands a nil error back unchanged. *)
Definition ctxerr_Wrap (cause : option error) (msg : string) : option error :=
  match cause with
  | None => None
  | Some e => Some (ctxerrWrap msg e)
  end.

(** Structural comparison, standing for Go's [==] on error values. *)
Fixpoint error_eqb (a b : error) {struct a} : bool :=
  match a, b with
  | errorString m, errorString m' => bool_decide (m = m')
  | ctxerrWrap m c, ctxerrWrap m' c' => bool_decide (m = m') && error_eqb c c'
  | fmtWrap m c, fmtWrap m' c' => bool_decide (m = m') && error_eqb c c'
  | joinError es, joinError es' =>
      (fix all2 (l l' : list error) {struct l} : bool :=
         match l, l' with
         | [], [] => true
         | x :: r, x' :: r' => error_eqb x x' && all2 r r'
         | _, _ => false
         end) es es'
  | APNSDeliveryError f c, APNSDeliveryError f' c' =>
      bool_decide (f = f') &&
      match c, c' with
      | None, None => true
      | Some x, Some x' => error_eqb x x'
      | _, _ => false
      end
  | _, _ => false
  end.

(** [errors.Is]: the error itself, or anything reachable through [Unwrap]
    ([Unwrap() error] of the wrappers and of [APNSDeliveryError],
    [Unwrap() []error] of a joined error). *)
Fixpoint errors_Is (err target : error) {struct err} : bool :=
  error_eqb err target ||
  match err with
  | errorString _ => false
  | ctxerrWrap _ c => errors_Is c target
  | fmtWrap _ c => errors_Is c target
  | joinError es =>
      (fix any (l : list error) : bool :=
         match l with
         | [] => false
         | x :: r => errors_Is x target || any r
         end) es
  | APNSDeliveryError _ (Some c) => errors_Is c target
  | APNSDeliveryError _ None => false
  end.

(** [errors.As] with a target of type [*APNSDeliveryError]: the first delivery
    error met on the way down the [Unwrap] tree, as its two fields. *)
Fixpoint errors_As_APNS (err : error) : option (list string * option error) :=
  match err with
  | errorString _ => None
  | ctxerrWrap _ c => errors_As_APNS c
  | fmtWrap _ c => errors_As_APNS c
  | joinError es =>
      (fix first (l : list error) : option (list string * option error) :=
         match l with
         | [] => None
         | x :: r =>
             match errors_As_APNS x with
             | Some d => Some d
             | None => first r
             end
         end) es
  | APNSDeliveryError f c => Some (f, c)
  end.

(** ** The state monad the embedded functions are written in *)

Definition State (S A : Type) : Type := S -> A * S.

Definition ret {S A : Type} (a : A) : State S A := fun s => (a, s).

Definition bind {S A B : Type} (m : State S A) (k : A -> State S B) : State S B :=
  fun s => let (a, s') := m s in k a s'.

Declare Scope state_scope.
Delimit Scope state_scope with state.
Notation "x <- c1 ; c2" := (bind c1 (fun x => c2))
  (at level 20, c1 at level 100, c2 at level 200, only parsing) : state_scope.
Notation "' pat <- c1 ; c2" := (bind c1 (fun x => match x with pat => c2 end))
  (at level 20, pat pattern, c1 at level 100, c2 at level 200, only parsing) : state_scope.

(** Go's [defer]: [cleanup] runs when [body] returns, whatever it returns, and
    its own result is dropped. *)
Definition defer {S A B : Type} (cleanup : State S B) (body : State S A) : State S A :=
  fun s => let (a, s1) := body s in let (_, s2) := cleanup s1 in (a, s2).

(** ** server/mdm/apple/commander.go *)

Module Commander.

(** [mdm.Command] of nanomdm, as [mdm.DecodeCommand] returns it. *)
Record Command : Type := mkCommand {
  CommandUUID : string;
  RequestType : string;
  Raw : string
}.

(** [fleet.Host]: the commander reads its [UUID] only. *)
Record Host : Type := mkHost { UUID : string }.

(** [push.Response] of nanomdm: one device's push outcome. *)
Record Response : Type := mkResponse { Id : string; Err : option error }.

(** The calls the commander makes on its two collaborators, with their
    arguments, in the order it makes them. *)
Inductive Call : Type :=
| CallGetProfileUserID (profIdent : string)
| CallEnqueueCommand (hostUUIDs : list string) (cmd : Command)
    (userPersistentInfoID : option Z) (fleetOwned : bool)
| CallEnqueueDeviceLockCommand (host : Host) (cmd : Command) (pin : string)
| CallEnqueueDeviceWipeCommand (host : Host) (cmd : Command)
| CallPush (hostUUIDs : list string).

(** The first three lines of every hand-written command template. *)
Definition plistProlog : string :=
  "<?xml version=" +:+ dq +:+ "1.0" +:+ dq +:+ " encoding=" +:+ dq +:+ "UTF-8" +:+ dq +:+ "?>
<!DOCTYPE plist PUBLIC " +:+ dq +:+ "-//Apple//DTD PLIST 1.0//EN" +:+ dq +:+ " " +:+ dq
  +:+ "http://www.apple.com/DTDs/PropertyList-1.0.dtd" +:+ dq +:+ ">
<plist version=" +:+ dq +:+ "1.0" +:+ dq +:+ ">
".

Record installEnterpriseApplicationPayload (Manifest : Type) : Type := mkIEAPayload {
  ieaManifest : Manifest;
  ieaRequestType : string
}.
Arguments mkIEAPayload {Manifest} _ _.

(** [commandPayload]: its [Command] field has type [any] and only ever holds
    an [installEnterpriseApplicationPayload]. *)
Record commandPayload (Manifest : Type) : Type := mkCommandPayload {
  cpCommandUUID : string;
  cpCommand : installEnterpriseApplicationPayload Manifest
}.
Arguments mkCommandPayload {Manifest} _ _.

(** Functions of other packages that the commander calls: nanomdm's decoder,
    the plist encoder, base64, the pin generator of this package (in a file of
    its own, drawing on a source of randomness of state [Rand]) and the order
    in which a [range] loop visits a map, which Go leaves open. *)
Class Externals (Rand Manifest : Type) : Type := mkExternals {
  DecodeCommand : string -> Command + error;
  plist_Marshal : commandPayload Manifest -> string + error;
  base64_EncodeToString : string -> string;
  GenerateRandomPin : Z -> Rand -> string * Rand;
  rangeOrder : gmap string Response -> list (string * Response)
}.

(** [fleet.MDMAppleStore], as far as the commander calls it, over the state
    [Store] of the storage.  The first result of the store's [EnqueueCommand] is
    dropped by the commander and left out. *)
Record MDMAppleStore (Store : Type) : Type := mkStore {
  GetProfileUserID : string -> Store -> (Z * option error) * Store;
  store_EnqueueCommand :
    list string -> Command -> option Z -> bool -> Store -> option error * Store;
  EnqueueDeviceLockCommand : Host -> Command -> string -> Store -> option error * Store;
  EnqueueDeviceWipeCommand : Host -> Command -> Store -> option error * Store
}.
Arguments mkStore {Store} _ _ _ _.
Arguments GetProfileUserID {Store} _ _ _.
Arguments store_EnqueueCommand {Store} _ _ _ _ _ _.
Arguments EnqueueDeviceLockCommand {Store} _ _ _ _ _.
Arguments EnqueueDeviceWipeCommand {Store} _ _ _ _.

(** [nanomdm_push.Pusher], over the state [Apns] of the push transport: the
    responses by device identifier, and an error. *)
Record Pusher (Apns : Type) : Type := mkPusher {
  Push : list string -> Apns -> (gmap string Response * option error) * Apns
}.
Arguments mkPusher {Apns} _.
Arguments Push {Apns} _ _ _.

Record MDMAppleCommander (Store Apns : Type) : Type := mkCommander {
  storage : MDMAppleStore Store;
  pusher : Pusher Apns
}.
Arguments mkCommander {Store Apns} _ _.
Arguments storage {Store Apns} _.
Arguments pusher {Store Apns} _.

(** What a run of the commander can change: the states of the storage, of the
    push transport and of the source of randomness, which the embedded code
    never looks inside, and the log of the calls made so far. *)
Record World (Store Apns Rand : Type) : Type := mkWorld {
  storage_st : Store;
  pusher_st : Apns;
  rand_st : Rand;
  calls : list Call
}.
Arguments mkWorld {Store Apns Rand} _ _ _ _.
Arguments storage_st {Store Apns Rand} _.
Arguments pusher_st {Store Apns Rand} _.
Arguments rand_st {Store Apns Rand} _.
Arguments calls {Store Apns Rand} _.

Section Commander.

Context {Store Apns Rand Manifest : Type} `{!Externals Rand Manifest}.

#[local] Abbreviation World := (World Store Apns Rand).
#[local] Abbreviation MDMAppleCommander := (MDMAppleCommander Store Apns).

(** A call on the storage: logged, and the storage's state replaced by the one
    the storage returns. *)
Definition onStorage {A : Type} (c : Call) (f : Store -> A * Store) : State World A :=
  fun w =>
    let (a, s') := f (storage_st w) in
    (a, mkWorld s' (pusher_st w) (rand_st w) (calls w ++ [c])).

Definition onPusher {A : Type} (c : Call) (f : Apns -> A * Apns) : State World A :=
  fun w =>
    let (a, p') := f (pusher_st w) in
    (a, mkWorld (storage_st w) p' (rand_st w) (calls w ++ [c])).

Definition onRand {A : Type} (f : Rand -> A * Rand) : State World A :=
  fun w =>
    let (a, r') := f (rand_st w) in
    (a, mkWorld (storage_st w) (pusher_st w) r' (calls w)).

Local Open Scope state_scope.

(** The loop of [sendNotifications] over the responses, [failed] being the
    slice built so far. *)
Fixpoint collectFailed (responses : list (string * Response)) (failed : list string)
    : list string :=
  match responses with
  | [] => failed
  | (uuid, response) :: rest =>
      collectFailed rest
        (match Err response with
         | Some _ => failed ++ [uuid]
         | None => failed
         end)
  end.

Definition sendNotifications (svc : MDMAppleCommander) (hostUUIDs : list string)
    : State World (option error) :=
  '(apnsResponses, err) <- onPusher (CallPush hostUUIDs) (Push (pusher svc) hostUUIDs) ;
  match err with
  | Some e => ret (ctxerr_Wrap (Some e) "commander push")
  | None =>
      (* Even if we didn't get an error, some of the APNs responses might
         have failed, signal that to the caller. *)
      let failed := collectFailed (rangeOrder apnsResponses) [] in
      if (0 <? length failed)%nat
      then ret (Some (APNSDeliveryError failed err))
      else ret None
  end.

(** The two [slog] lines of the source write to the process log only and are
    left out. *)
Definition EnqueueCommand (svc : MDMAppleCommander) (hostUUIDs : list string)
    (rawCommand : string) (userPersistentInfoID : option Z) (fleetOwned : bool)
    : State World (option error) :=
  match DecodeCommand rawCommand with
  | inr err => ret (ctxerr_Wrap (Some err) "decoding command")
  | inl cmd =>
      err <- onStorage (CallEnqueueCommand hostUUIDs cmd userPersistentInfoID fleetOwned)
               (store_EnqueueCommand (storage svc) hostUUIDs cmd userPersistentInfoID
                  fleetOwned) ;
      match err with
      | Some e => ret (ctxerr_Wrap (Some e) "enqueuing command")
      | None =>
          err <- sendNotifications svc hostUUIDs ;
          match err with
          | Some e => ret (ctxerr_Wrap (Some e) "sending notifications")
          | None => ret None
          end
      end
  end.

(** Returns Go's triple [(userID, fleetInitiated, err)]; [*uint] is an option. *)
Definition getProfileCreator (svc : MDMAppleCommander) (profIdent : string)
    : State World (option Z * bool * option error) :=
  '(uid, err) <- onStorage (CallGetProfileUserID profIdent)
                   (GetProfileUserID (storage svc) profIdent) ;
  match err with
  | Some e => ret (None, false, Some e)
  | None =>
      if uid =? 0
      then ret (None, true, None)
      else ret (Some uid, false, None)
  end.

Definition InstallProfile (svc : MDMAppleCommander) (hostUUIDs : list string)
    (profile : string) (uuid : string) (profIdent : string) : State World (option error) :=
  let base64Profile := base64_EncodeToString profile in
  let raw := plistProlog +:+ "<dict>
	<key>CommandUUID</key>
	<string>" +:+ uuid +:+ "</string>
	<key>Command</key>
	<dict>
		<key>RequestType</key>
		<string>InstallProfile</string>
		<key>Payload</key>
		<data>" +:+ base64Profile +:+ "</data>
	</dict>
</dict>
</plist>" in
  '(userID, fleetOwned, err) <- getProfileCreator svc profIdent ;
  match err with
  | Some e => ret (ctxerr_Wrap (Some e) "commander install profile get user id")
  | None =>
      err <- EnqueueCommand svc hostUUIDs raw userID fleetOwned ;
      ret (ctxerr_Wrap err "commander install profile")
  end.

Definition RemoveProfile (svc : MDMAppleCommander) (hostUUIDs : list string)
    (profileIdentifier : string) (uuid : string) : State World (option error) :=
  let raw := plistProlog +:+ "<dict>
	<key>CommandUUID</key>
	<string>" +:+ uuid +:+ "</string>
	<key>Command</key>
	<dict>
		<key>RequestType</key>
		<string>RemoveProfile</string>
		<key>Identifier</key>
		<string>" +:+ profileIdentifier +:+ "</string>
	</dict>
</dict>
</plist>" in
  '(userID, fleetOwned, err) <- getProfileCreator svc profileIdentifier ;
  match err with
  | Some e => ret (ctxerr_Wrap (Some e) "commander remove profile get user id")
  | None =>
      err <- EnqueueCommand svc hostUUIDs raw userID fleetOwned ;
      ret (ctxerr_Wrap err "commander remove profile")
  end.

(** The rendered [DeviceLock] command for a command UUID and a pin. *)
Definition deviceLockRaw (uuid pin : string) : string :=
  plistProlog +:+ "  <dict>
    <key>CommandUUID</key>
    <string>" +:+ uuid +:+ "</string>
    <key>Command</key>
    <dict>
      <key>RequestType</key>
      <string>DeviceLock</string>
      <key>PIN</key>
      <string>" +:+ pin +:+ "</string>
    </dict>
  </dict>
</plist>".

Definition DeviceLock (svc : MDMAppleCommander) (host : Host) (uuid : string)
    : State World (option error) :=
  pin <- onRand (GenerateRandomPin 6) ;
  let raw := deviceLockRaw uuid pin in
  match DecodeCommand raw with
  | inr err => ret (ctxerr_Wrap (Some err) "decoding command")
  | inl cmd =>
      err <- onStorage (CallEnqueueDeviceLockCommand host cmd pin)
               (EnqueueDeviceLockCommand (storage svc) host cmd pin) ;
      match err with
      | Some e => ret (ctxerr_Wrap (Some e) "enqueuing for DeviceLock")
      | None =>
          err <- sendNotifications svc [UUID host] ;
          match err with
          | Some e => ret (ctxerr_Wrap (Some e) "sending notifications for DeviceLock")
          | None => ret None
          end
      end
  end.

(** The rendered [EraseDevice] command for a command UUID and a pin. *)
Definition eraseDeviceRaw (uuid pin : string) : string :=
  plistProlog +:+ "  <dict>
    <key>CommandUUID</key>
    <string>" +:+ uuid +:+ "</string>
    <key>Command</key>
    <dict>
      <key>RequestType</key>
      <string>EraseDevice</string>
      <key>PIN</key>
      <string>" +:+ pin +:+ "</string>
      <key>ObliterationBehavior</key>
      <string>Default</string>
    </dict>
  </dict>
</plist>".

Definition EraseDevice (svc : MDMAppleCommander) (host : Host) (uuid : string)
    : State World (option error) :=
  pin <- onRand (GenerateRandomPin 6) ;
  let raw := eraseDeviceRaw uuid pin in
  match DecodeCommand raw with
  | inr err => ret (ctxerr_Wrap (Some err) "decoding command")
  | inl cmd =>
      err <- onStorage (CallEnqueueDeviceWipeCommand host cmd)
               (EnqueueDeviceWipeCommand (storage svc) host cmd) ;
      match err with
      | Some e => ret (ctxerr_Wrap (Some e) "enqueuing for DeviceWipe")
      | None =>
          err <- sendNotifications svc [UUID host] ;
          match err with
          | Some e => ret (ctxerr_Wrap (Some e) "sending notifications for DeviceWipe")
          | None => ret None
          end
      end
  end.

Definition InstallEnterpriseApplication (svc : MDMAppleCommander)
    (hostUUIDs : list string) (uuid : string) (manifestURL : string)
    : State World (option error) :=
  let raw := plistProlog +:+ "  <dict>
    <key>Command</key>
    <dict>
      <key>ManifestURL</key>
      <string>" +:+ manifestURL +:+ "</string>
      <key>RequestType</key>
      <string>InstallEnterpriseApplication</string>
    </dict>

    <key>CommandUUID</key>
    <string>" +:+ uuid +:+ "</string>
  </dict>
</plist>" in
  EnqueueCommand svc hostUUIDs raw None true.

Definition InstallEnterpriseApplicationWithEmbeddedManifest (svc : MDMAppleCommander)
    (hostUUIDs : list string) (uuid : string) (manifest : Manifest)
    : State World (option error) :=
  let cmd := mkCommandPayload uuid (mkIEAPayload manifest "InstallEnterpriseApplication") in
  match plist_Marshal cmd with
  | inr err => ret (Some (fmtWrap "marshal command payload plist: " err))
  | inl raw => EnqueueCommand svc hostUUIDs raw None false
  end.

Definition AccountConfiguration (svc : MDMAppleCommander) (hostUUIDs : list string)
    (uuid fullName userName : string) : State World (option error) :=
  let raw := plistProlog +:+ "  <dict>
    <key>Command</key>
    <dict>
      <key>PrimaryAccountFullName</key>
      <string>" +:+ fullName +:+ "</string>
      <key>PrimaryAccountUserName</key>
      <string>" +:+ userName +:+ "</string>
      <key>LockPrimaryAccountInfo</key>
      <true />
      <key>RequestType</key>
      <string>AccountConfiguration</string>
    </dict>

    <key>CommandUUID</key>
    <string>" +:+ uuid +:+ "</string>
  </dict>
</plist>" in
  EnqueueCommand svc hostUUIDs raw None true.

End Commander.

(** *** What the claims speak of *)

(** A command is attributed when exactly one of "has a user" and "owned by
    Fleet" holds. *)
Definition attributed (userPersistentInfoID : option Z) (fleetOwned : bool) : bool :=
  xorb (bool_decide (is_Some userPersistentInfoID)) fleetOwned.

(** The attribution a storage call carries, for the calls that carry one. *)
Definition attributionOf (c : Call) : option (option Z * bool) :=
  match c with
  | CallEnqueueCommand _ _ userID fleetOwned => Some (userID, fleetOwned)
  | _ => None
  end.

Definition isPush (c : Call) : bool :=
  match c with
  | CallPush _ => true
  | _ => false
  end.

Definition isDigit (a : Ascii.ascii) : bool :=
  let n := Ascii.nat_of_ascii a in ((48 <=? n) && (n <=? 57))%nat.

Fixpoint allDigits (s : string) : bool :=
  match s with
  | EmptyString => true
  | String a r => isDigit a && allDigits r
  end.

(** The character at which every tag of a property list starts, and the
    strings that hold none. *)
Definition lessThan : Ascii.ascii := Ascii.ascii_of_nat 60.

Fixpoint noMarkup (s : string) : bool :=
  match s with
  | EmptyString => true
  | String a r => negb (Ascii.eqb a lessThan) && noMarkup r
  end.

(** A [range] loop visits every entry of the map once, in some order. *)
Definition rangeVisitsAll {Rand Manifest : Type} `{!Externals Rand Manifest} : Prop :=
  forall m : gmap string Response, rangeOrder m ≡ₚ map_to_list m.

(** *** The pin generator *)

(** A source of random integers: the values it will give, and how many were
    drawn so far. *)
Record RandomSource : Type := mkRandomSource {
  draw : nat -> Z;
  drawn : nat
}.

(** The decimal digits of [v], lowest last, on exactly [width] places. *)
Fixpoint fixedDigits (width : nat) (v : Z) : string :=
  match width with
  | O => EmptyString
  | S k =>
      fixedDigits k (v / 10)
      +:+ String (Ascii.ascii_of_nat (48 + Z.to_nat (v mod 10))) EmptyString
  end.

(** Modelled from the spec: [GenerateRandomPin] is declared in another file of
    package [apple_mdm], which is not among the sources.  The spec's
    DeviceLockSecret is "a 6-digit numeric string generated per
    DeviceLock/EraseDevice command", "exactly 6 characters, digits only, leading
    zeros preserved as a string", fresh per invocation; the spec's example
    [000042] is the small value 42.  The model draws the next random value and
    prints it modulo [10 ^ length] on [length] places. *)
Definition GenerateRandomPin_model (length : Z) (r : RandomSource) : string * RandomSource :=
  (fixedDigits (Z.to_nat length) (draw r (drawn r) mod 10 ^ length),
   mkRandomSource (draw r) (S (drawn r))).

(** The externals [ext] with the pin generator of the model in the place of
    their own. *)
Definition withModelPin {Manifest : Type} (ext : Externals RandomSource Manifest)
    : Externals RandomSource Manifest :=
  mkExternals RandomSource Manifest
    (@DecodeCommand _ _ ext) (@plist_Marshal _ _ ext) (@base64_EncodeToString _ _ ext)
    GenerateRandomPin_model (@rangeOrder _ _ ext).

(** The decoder keeps the text it decoded in the command's [Raw] field, as
    nanomdm's does. *)
Definition keepsText {Rand Manifest : Type} (ext : Externals Rand Manifest) : Prop :=
  forall raw cmd, @DecodeCommand _ _ ext raw = inl cmd -> Raw cmd = raw.

(** *** Test doubles

    Stand-ins for the collaborators, as a test of the package would write
    them; the closed examples below run the commander against them. *)

(** What follows the first occurrence of [pat] in [s]. *)
Fixpoint textAfter (pat s : string) : option string :=
  if String.prefix pat s
  then Some (String.substring (String.length pat) (String.length s - String.length pat) s)
  else match s with
       | EmptyString => None
       | String _ r => textAfter pat r
       end.

(** What precedes the first occurrence of [pat] in [s]. *)
Fixpoint textBefore (pat s : string) : option string :=
  if String.prefix pat s
  then Some EmptyString
  else match s with
       | EmptyString => None
       | String a r => option_map (String a) (textBefore pat r)
       end.

(** The [<string>] value that follows [<key>k</key>]. *)
Definition plistString (k raw : string) : option string :=
  rest ← textAfter ("<key>" +:+ k +:+ "</key>") raw;
  rest ← textAfter "<string>" rest;
  textBefore "</string>" rest.

(** The secret read back off the text of a command: the value of its [PIN]
    key. *)
Definition pinOf (raw : string) : option string := plistString "PIN" raw.

(** [s] differs from [pat] at a place both have. *)
Fixpoint clash (pat s : string) : bool :=
  match pat, s with
  | String a p, String b r => if Ascii.eqb a b then clash p r else true
  | _, _ => false
  end.

(** No occurrence of [pat] starts within [a], whatever follows [a]. *)
Fixpoint clashes (pat a : string) : bool :=
  match a with
  | EmptyString => true
  | String _ r => clash pat a && clashes pat r
  end.

(** A decoder double: reads [CommandUUID] and [RequestType] off the text and,
    like nanomdm's, refuses a command that lacks either. *)
Definition decodeDouble (raw : string) : Command + error :=
  match plistString "CommandUUID" raw, plistString "RequestType" raw with
  | Some uuid, Some rt =>
      if bool_decide (uuid = EmptyString) || bool_decide (rt = EmptyString)
      then inr (errorString "invalid command")
      else inl (mkCommand uuid rt raw)
  | _, _ => inr (errorString "invalid command")
  end.

(** An encoder double, over manifests that are already text. *)
Definition marshalDouble (cmd : commandPayload string) : string + error :=
  inl (plistProlog +:+ "<dict><key>Command</key><dict><key>Manifest</key>"
       +:+ ieaManifest _ (cpCommand _ cmd)
       +:+ "<key>RequestType</key><string>" +:+ ieaRequestType _ (cpCommand _ cmd)
       +:+ "</string></dict><key>CommandUUID</key><string>" +:+ cpCommandUUID _ cmd
       +:+ "</string></dict></plist>").

Definition externalsDouble : Externals RandomSource string :=
  mkExternals RandomSource string decodeDouble marshalDouble (fun s => s)
    GenerateRandomPin_model map_to_list.

(** What the storage double keeps: one row per host and command. *)
Inductive Row : Type :=
| RowCommand (host : string) (cmd : Command) (userID : option Z) (fleetOwned : bool)
| RowLock (host : string) (cmd : Command) (pin : string)
| RowWipe (host : string) (cmd : Command).

(** A storage double that never fails; [owner] gives each profile's user. *)
Definition memStore (owner : string -> Z) : MDMAppleStore (list Row) :=
  mkStore
    (fun profIdent s => ((owner profIdent, None), s))
    (fun hostUUIDs cmd userID fleetOwned s =>
       (None, s ++ map (fun h => RowCommand h cmd userID fleetOwned) hostUUIDs))
    (fun host cmd pin s => (None, s ++ [RowLock (UUID host) cmd pin]))
    (fun host cmd s => (None, s ++ [RowWipe (UUID host) cmd])).

(** A storage double whose every call fails with [e]. *)
Definition brokenStore (e : error) : MDMAppleStore (list Row) :=
  mkStore
    (fun _ s => ((0, Some e), s))
    (fun _ _ _ _ s => (Some e, s))
    (fun _ _ _ s => (Some e, s))
    (fun _ _ s => (Some e, s)).

(** A push double that answers for every identifier, with the error [cause]
    for those in [bad]; its state counts the calls. *)
Definition flakyPusher (bad : list string) (cause : error) : Pusher nat :=
  mkPusher (fun hostUUIDs n =>
    ((list_to_map
        (map (fun h => (h, mkResponse h (if bool_decide (h ∈ bad) then Some cause else None)))
           hostUUIDs),
      None),
     S n)).

(** A push double whose transport is down: no responses, the error [e]. *)
Definition downPusher (e : error) : Pusher nat :=
  mkPusher (fun _ n => ((∅, Some e), S n)).

Definition world0 : World (list Row) nat RandomSource :=
  mkWorld [] 0%nat (mkRandomSource (fun _ => 42) 0) [].

(** A command as a caller of [EnqueueCommand] would render it. *)
Definition sampleCommand : string :=
  "<dict><key>CommandUUID</key><string>u-1</string><key>Command</key><dict>"
  +:+ "<key>RequestType</key><string>InstallProfile</string></dict></dict>".

Definition sampleDecoded : Command := mkCommand "u-1" "InstallProfile" sampleCommand.

Definition tokenInactive : error := errorString "device token is inactive".

Definition apnsDown : error := errorString "apns: connection refused".

(** A commander whose storage takes everything and whose pushes succeed for
    all targets but those in [bad]. *)
Definition svcDouble (bad : list string) : MDMAppleCommander (list Row) nat :=
  mkCommander (memStore (fun _ => 0)) (flakyPusher bad tokenInactive).

(** A commander whose push transport is down. *)
Definition svcPushDown : MDMAppleCommander (list Row) nat :=
  mkCommander (memStore (fun _ => 0)) (downPusher apnsDown).

(** The calls that store a command or push: all but the profile lookup. *)
Definition storesOrPushes (c : Call) : bool :=
  match c with
  | CallGetProfileUserID _ => false
  | _ => true
  end.

(** The calls a run added to the log. *)
Definition newCalls {Store Apns Rand : Type} (w w' : World Store Apns Rand) : list Call :=
  drop (length (calls w)) (calls w').

(** The calls one [EnqueueCommand] adds, from what the decoder and the storage
    answer. *)
Definition enqueueCalls {Store Apns Rand Manifest : Type} `{!Externals Rand Manifest}
    (svc : MDMAppleCommander Store Apns) (hostUUIDs : list string) (rawCommand : string)
    (userID : option Z) (fleetOwned : bool) (w : World Store Apns Rand) : list Call :=
  match DecodeCommand rawCommand with
  | inr _ => []
  | inl cmd =>
      CallEnqueueCommand hostUUIDs cmd userID fleetOwned ::
      match (store_EnqueueCommand (storage svc) hostUUIDs cmd userID fleetOwned
               (storage_st w)).1 with
      | Some _ => []
      | None => [CallPush hostUUIDs]
      end
  end.

(** The attribution [getProfileCreator] derives from a profile's user id. *)
Definition creatorOf (uid : Z) : option Z * bool :=
  if uid =? 0 then (None, true) else (Some uid, false).

(** The commands as the builders render them, from the same templates. *)
Definition installProfileRaw (uuid base64Profile : string) : string :=
  plistProlog +:+ "<dict>
	<key>CommandUUID</key>
	<string>" +:+ uuid +:+ "</string>
	<key>Command</key>
	<dict>
		<key>RequestType</key>
		<string>InstallProfile</string>
		<key>Payload</key>
		<data>" +:+ base64Profile +:+ "</data>
	</dict>
</dict>
</plist>".

Definition removeProfileRaw (uuid profileIdentifier : string) : string :=
  plistProlog +:+ "<dict>
	<key>CommandUUID</key>
	<string>" +:+ uuid +:+ "</string>
	<key>Command</key>
	<dict>
		<key>RequestType</key>
		<string>RemoveProfile</string>
		<key>Identifier</key>
		<string>" +:+ profileIdentifier +:+ "</string>
	</dict>
</dict>
</plist>".

Definition installEnterpriseApplicationRaw (manifestURL uuid : string) : string :=
  plistProlog +:+ "  <dict>
    <key>Command</key>
    <dict>
      <key>ManifestURL</key>
      <string>" +:+ manifestURL +:+ "</string>
      <key>RequestType</key>
      <string>InstallEnterpriseApplication</string>
    </dict>

    <key>CommandUUID</key>
    <string>" +:+ uuid +:+ "</string>
  </dict>
</plist>".

Definition accountConfigurationRaw (fullName userName uuid : string) : string :=
  plistProlog +:+ "  <dict>
    <key>Command</key>
    <dict>
      <key>PrimaryAccountFullName</key>
      <string>" +:+ fullName +:+ "</string>
      <key>PrimaryAccountUserName</key>
      <string>" +:+ userName +:+ "</string>
      <key>LockPrimaryAccountInfo</key>
      <true />
      <key>RequestType</key>
      <string>AccountConfiguration</string>
    </dict>

    <key>CommandUUID</key>
    <string>" +:+ uuid +:+ "</string>
  </dict>
</plist>".

Definition storageDown : error := errorString "mysql: connection refused".

(** A commander whose profiles all belong to the user 7. *)
Definition svcUserOwned : MDMAppleCommander (list Row) nat :=
  mkCommander (memStore (fun _ => 7)) (flakyPusher [] tokenInactive).

(** A commander whose storage is down. *)
Definition svcStorageDown : MDMAppleCommander (list Row) nat :=
  mkCommander (brokenStore storageDown) (flakyPusher [] tokenInactive).

End Commander.

(** ** orbit/pkg/installer *)

Module Installer.

(** [fleet.HostScriptResult], as [GetHostScript] returns it: the fields the
    runner reads.  [ID] is a [uint]. *)
Record HostScriptResult : Type := mkHostScriptResult {
  ID : Z;
  ExecutionID : string;
  ScriptContents : string
}.

(** [fleet.HostScriptResultPayload], as the runner fills it in. *)
Record HostScriptResultPayload : Type := mkPayload {
  pExecutionID : string;
  Output : string;
  Runtime : Z;
  ExitCode : Z
}.

(** [fleet.OrbitSoftwareInstaller]. *)
Record OrbitSoftwareInstaller : Type := mkInstaller {
  PreInstallCondition : string;
  InstallScript : string;
  PostInstallScript : string;
  SoftwareId : string
}.

(** [osquery_gen.ExtensionStatus] and [osquery_gen.ExtensionResponse]; a row is
    a [map[string]string]. *)
Record ExtensionStatus : Type := mkStatus { Code : Z; Message : string }.

Record QueryResponse : Type := mkQueryResponse {
  Status : ExtensionStatus;
  Response : list (gmap string string)
}.

(** The calls the runner makes on its collaborators and on the operating
    system, each with its arguments and with what came back. *)
Inductive Event : Type :=
| EvQuery (query : string) (res : QueryResponse + error)
| EvGetHostScript (execID : string) (res : HostScriptResult + error)
| EvTempDir (dir : string)
| EvGetInstaller (installerID downloadDir : string) (res : string + error)
| EvWriteFile (name data : string) (err : option error)
| EvExecCmd (scriptPath : string) (output : string) (exitCode : Z) (err : option error)
| EvSaveHostScriptResult (result : HostScriptResultPayload) (err : option error)
| EvRemoveAll (path : string) (err : option error).

(** [QueryClient], over the state [E] of everything outside the runner (the
    file system, osquery, the server, the clock). *)
Record QueryClient (E : Type) : Type := mkQueryClient {
  Query : string -> E -> (QueryResponse + error) * E
}.
Arguments mkQueryClient {E} _.
Arguments Query {E} _ _ _.

(** [Client]: the API requests to the server. *)
Record Client (E : Type) : Type := mkClient {
  GetHostScript : string -> E -> (HostScriptResult + error) * E;
  GetInstaller : string -> string -> E -> (string + error) * E;
  SaveHostScriptResult : HostScriptResultPayload -> E -> option error * E
}.
Arguments mkClient {E} _ _ _.
Arguments GetHostScript {E} _ _ _.
Arguments GetInstaller {E} _ _ _ _.
Arguments SaveHostScriptResult {E} _ _ _.

(** [Runner]; a nil function field is [None]. *)
Record Runner (E : Type) : Type := mkRunner {
  OsqueryClient : QueryClient E;
  OrbitClient : Client E;
  tempDirFn : option (E -> string * E);
  execCmdFn : option (string -> E -> (string * Z * option error) * E);
  removeAllFn : option (string -> E -> option error * E)
}.
Arguments mkRunner {E} _ _ _ _ _.
Arguments OsqueryClient {E} _.
Arguments OrbitClient {E} _.
Arguments tempDirFn {E} _.
Arguments execCmdFn {E} _.
Arguments removeAllFn {E} _.

(** What the runner takes from the operating system and from other packages
    when a function field is nil, and in any case: [os.TempDir], [os.RemoveAll],
    [os.WriteFile] (with [os.ModePerm]), [scripts.ExecCmd] and [time.Now], the
    clock read in nanoseconds. *)
Class OS (E : Type) : Type := mkOS {
  os_TempDir : E -> string * E;
  os_RemoveAll : string -> E -> option error * E;
  os_WriteFile : string -> string -> E -> option error * E;
  scripts_ExecCmd : string -> E -> (string * Z * option error) * E;
  time_Now : E -> Z * E
}.

(** The runner is reached through a pointer and fills in its own nil fields,
    so it is part of what a call can change, with the outside and the log. *)
Record World (E : Type) : Type := mkWorld {
  runner : Runner E;
  env : E;
  events : list Event
}.
Arguments mkWorld {E} _ _ _.
Arguments runner {E} _.
Arguments env {E} _.
Arguments events {E} _.

(** [int(x)] of a [uint] on a 64-bit platform. *)
Definition int_of_uint (x : Z) : Z :=
  let x := x mod 2 ^ 64 in
  if x <? 2 ^ 63 then x else x - 2 ^ 64.

Definition strconv_Itoa (i : Z) : string := NilZero.string_of_int (Z.to_int i).

(** The separator, as a character. *)
Definition slash : Ascii.ascii := Ascii.ascii_of_nat 47.

(** [strings.Split(s, "/")]. *)
Fixpoint splitSlash (s : string) : list string :=
  match s with
  | EmptyString => [EmptyString]
  | String c r =>
      if Ascii.eqb c slash then EmptyString :: splitSlash r
      else match splitSlash r with
           | h :: t => String c h :: t
           | [] => [String c EmptyString]
           end
  end.

(** [filepath.Clean] on a platform whose separator is the slash: runs of
    separators become one, every [.] element goes, every inner [..] goes with
    the element other than [..] before it, a [..] that begins a rooted path
    goes, and the empty result is [.].  [kept] holds the elements kept so far,
    the latest first. *)
Definition filepath_Clean (path : string) : string :=
  let rooted := String.prefix "/" path in
  let step (kept : list string) (elem : string) : list string :=
    if bool_decide (elem = "") || bool_decide (elem = ".") then kept
    else if bool_decide (elem = "..") then
      match kept with
      | last :: before => if bool_decide (last = "..") then elem :: kept else before
      | [] => if rooted then [] else [elem]
      end
    else elem :: kept in
  let out := (if rooted then "/" else "")
             +:+ String.concat "/" (rev (fold_left step (splitSlash path) [])) in
  if bool_decide (out = "") then "." else out.

(** [filepath.Join] of two elements on a platform whose separator is the
    slash: empty elements are ignored, the others are joined with the
    separator and the result is cleaned; with no element left the result is
    empty. *)
Definition filepath_Join (dir name : string) : string :=
  if bool_decide (dir = "")
  then (if bool_decide (name = "") then "" else filepath_Clean name)
  else filepath_Clean (dir +:+ "/" +:+ name).

(** [float64(i)] of an integer, and [int(x)] of a finite [float64], which
    drops the fraction. *)
Definition float64 (i : Z) : SpecFloat.spec_float :=
  SpecFloat.binary_normalize 53 1024 i 0 false.

Definition int_of_float64 (x : SpecFloat.spec_float) : Z :=
  match x with
  | SpecFloat.S754_finite s m e =>
      let a := if 0 <=? e then Z.pos m * 2 ^ e else Z.pos m / 2 ^ (- e) in
      if s then - a else a
  | _ => 0
  end.

(** [int(d.Seconds())] of a duration in nanoseconds.  [Duration.Seconds] is
    [float64(sec) + float64(nsec)/1e9] for [sec := d / Second] and
    [nsec := d % Second], in IEEE double arithmetic. *)
Definition seconds (d : Z) : Z :=
  let sec := Z.quot d 1000000000 in
  let nsec := Z.rem d 1000000000 in
  int_of_float64
    (SpecFloat.SFadd 53 1024 (float64 sec)
       (SpecFloat.SFdiv 53 1024 (float64 nsec) (float64 1000000000))).

Section Installer.

Context {E : Type} `{!OS E}.

#[local] Abbreviation World := (World E).

Local Open Scope state_scope.

(** A call on the outside: the outside's state is replaced by the one that
    comes back, and the event made from the result is logged. *)
Definition call {A : Type} (f : E -> A * E) (ev : A -> Event) : State World A :=
  fun w =>
    let (a, e') := f (env w) in
    (a, mkWorld (runner w) e' (events w ++ [ev a])).

(** Reading the clock is not logged. *)
Definition now : State World Z :=
  fun w => let (t, e') := time_Now (env w) in (t, mkWorld (runner w) e' (events w)).

Definition getRunner : State World (Runner E) := fun w => (runner w, w).

Definition setRunner (r : Runner E) : State World unit :=
  fun w => (tt, mkWorld r (env w) (events w)).

Definition preConditionCheck (query : string) : State World (bool * option error) :=
  r <- getRunner ;
  res <- call (Query (OsqueryClient r) query) (EvQuery query) ;
  match res with
  | inr err => ret (false, ctxerr_Wrap (Some err) "precondition check")
  | inl res =>
      if negb (Code (Status res) =? 0)
      then ret (false,
                ctxerr_Wrap
                  (Some (errorString ("non-zero query status: "
                                      +:+ strconv_Itoa (Code (Status res)) +:+ " " +:+ dq
                                      +:+ Message (Status res) +:+ dq)))
                  "")
      else if (0 <? length (Response res))%nat
      then ret (true, None)
      else ret (false, None)
  end.

(** The two [print] lines of the source write to standard error only and are
    left out.  The error of [execCmdFn] is bound to [err] and then overwritten
    by the result of [SaveHostScriptResult] before anything reads it. *)
Definition runInstallerScript (script : HostScriptResult) (installerPath : string)
    : State World (option error) :=
  (* run script in installer directory *)
  let scriptPath := filepath_Join installerPath (strconv_Itoa (int_of_uint (ID script))) in
  err <- call (os_WriteFile scriptPath (ScriptContents script))
              (EvWriteFile scriptPath (ScriptContents script)) ;
  match err with
  | Some e => ret (ctxerr_Wrap (Some e) "writing script")
  | None =>
      r <- getRunner ;
      let execCmd := default scripts_ExecCmd (execCmdFn r) in
      _ <- setRunner (mkRunner (OsqueryClient r) (OrbitClient r) (tempDirFn r)
                        (Some execCmd) (removeAllFn r)) ;
      start <- now ;
      '(output, exitCode, err) <- call (execCmd scriptPath)
                                    (fun '(o, c, e) => EvExecCmd scriptPath o c e) ;
      stop <- now ;
      let duration := stop - start in
      r <- getRunner ;
      let result := mkPayload (ExecutionID script) output (seconds duration) exitCode in
      err <- call (SaveHostScriptResult (OrbitClient r) result)
                  (EvSaveHostScriptResult result) ;
      match err with
      | Some e => ret (Some (fmtWrap "save script result: " e))
      | None => ret None
      end
  end.

(** The deferred function of [InstallSoftware]. *)
Definition removeTmpDir (tmpDir : string) : State World unit :=
  r <- getRunner ;
  let removeAll := default os_RemoveAll (removeAllFn r) in
  _ <- setRunner (mkRunner (OsqueryClient r) (OrbitClient r) (tempDirFn r)
                    (execCmdFn r) (Some removeAll)) ;
  _ <- call (removeAll tmpDir) (EvRemoveAll tmpDir) ;
  ret tt.

Definition InstallSoftware (installer : OrbitSoftwareInstaller) : State World (option error) :=
  '(shouldInstall, err) <- preConditionCheck (PreInstallCondition installer) ;
  match err with
  | Some e => ret (Some e)
  | None =>
  if negb shouldInstall then ret None else
  r <- getRunner ;
  res <- call (GetHostScript (OrbitClient r) (InstallScript installer))
              (EvGetHostScript (InstallScript installer)) ;
  match res with
  | inr e => ret (Some e)
  | inl installScript =>
  res <- call (GetHostScript (OrbitClient r) (PostInstallScript installer))
              (EvGetHostScript (PostInstallScript installer)) ;
  match res with
  | inr e => ret (Some e)
  | inl postInstallScript =>
  let tempDir := default os_TempDir (tempDirFn r) in
  _ <- setRunner (mkRunner (OsqueryClient r) (OrbitClient r) (Some tempDir)
                    (execCmdFn r) (removeAllFn r)) ;
  tmpDir <- call tempDir EvTempDir ;
  r <- getRunner ;
  res <- call (GetInstaller (OrbitClient r) (SoftwareId installer) tmpDir)
              (EvGetInstaller (SoftwareId installer) tmpDir) ;
  match res with
  | inr e => ret (Some e)
  | inl installerPath =>
  (* remove tmp directory and installer *)
  defer (removeTmpDir tmpDir)
    (err <- runInstallerScript installScript installerPath ;
     match err with
     | Some e => ret (Some e)
     | None =>
         err <- runInstallerScript postInstallScript installerPath ;
         match err with
         | Some e => ret (Some e)
         | None => ret None
         end
     end)
  end end end end.

End Installer.

(** *** What the claims speak of *)

(** The events a call added to the log. *)
Definition newEvents {E : Type} (w w' : World E) : list Event :=
  drop (length (events w)) (events w').

(** The script executions of a log, the results submitted and the directories
    removed, in order. *)
Definition execsOf (evs : list Event) : list (string * string * Z * option error) :=
  omap (fun ev => match ev with
                  | EvExecCmd p o c e => Some (p, o, c, e)
                  | _ => None
                  end) evs.

Definition savedOf (evs : list Event) : list (HostScriptResultPayload * option error) :=
  omap (fun ev => match ev with
                  | EvSaveHostScriptResult r e => Some (r, e)
                  | _ => None
                  end) evs.

Definition removedOf (evs : list Event) : list string :=
  omap (fun ev => match ev with
                  | EvRemoveAll d _ => Some d
                  | _ => None
                  end) evs.

Definition isFetch (ev : Event) : bool :=
  match ev with
  | EvGetHostScript _ _ | EvGetInstaller _ _ _ => true
  | _ => false
  end.

Definition writeFailed (ev : Event) : bool :=
  match ev with
  | EvWriteFile _ _ (Some _) => true
  | _ => false
  end.

(** The execution strategy could not run the script at all. *)
Definition launchFailed (ev : Event) : bool :=
  match ev with
  | EvExecCmd _ _ _ (Some _) => true
  | _ => false
  end.

Definition saveFailed (ev : Event) : bool :=
  match ev with
  | EvSaveHostScriptResult _ (Some _) => true
  | _ => false
  end.

(** The path a script is written to and run from. *)
Definition scriptPathOf (script : HostScriptResult) (installerPath : string) : string :=
  filepath_Join installerPath (strconv_Itoa (int_of_uint (ID script))).
Arguments scriptPathOf : simpl never.

(** The log of one [runInstallerScript], with what it returns: the write
    fails, or the script is written, executed and its result submitted. *)
Inductive ScriptRun (script : HostScriptResult) (installerPath : string)
    : option error -> list Event -> Prop :=
| WriteFails (e : error) :
    ScriptRun script installerPath (Some (ctxerrWrap "writing script" e))
      [EvWriteFile (scriptPathOf script installerPath) (ScriptContents script) (Some e)]
| Executed (output : string) (exitCode : Z) (xerr : option error) (runtime : Z)
    (serr : option error) :
    ScriptRun script installerPath
      (option_map (fmtWrap "save script result: ") serr)
      [EvWriteFile (scriptPathOf script installerPath) (ScriptContents script) None;
       EvExecCmd (scriptPathOf script installerPath) output exitCode xerr;
       EvSaveHostScriptResult
         (mkPayload (ExecutionID script) output runtime exitCode) serr].

(** The query answered with status zero and at least one row. *)
Definition proceeds (res : QueryResponse) : Prop :=
  Code (Status res) = 0 /\ Response res <> [].

(** What the outside answers on the way to the scripts: starting from [e],
    the precondition query says proceed, both scripts are fetched, the
    directory [d] is given and the installer is fetched to [p], which leaves
    the outside as [e']. *)
Definition fetched {E : Type} `{!OS E} (r : Runner E) (installer : OrbitSoftwareInstaller)
    (e : E) (res : QueryResponse) (s1 s2 : HostScriptResult) (d p : string) (e' : E)
    : Prop :=
  exists e1 e2 e3 e4,
    Query (OsqueryClient r) (PreInstallCondition installer) e = (inl res, e1) /\
    proceeds res /\
    GetHostScript (OrbitClient r) (InstallScript installer) e1 = (inl s1, e2) /\
    GetHostScript (OrbitClient r) (PostInstallScript installer) e2 = (inl s2, e3) /\
    default os_TempDir (tempDirFn r) e3 = (d, e4) /\
    GetInstaller (OrbitClient r) (SoftwareId installer) d e4 = (inl p, e').

(** What the outside answers to the steps of one script: starting from [e],
    the script is written, the clock is read, the execution strategy returns
    [out], [code] and [xerr], the clock is read again, and the server answers
    [serr] to [result], the payload made of the script's execution id, the
    output, the whole seconds between the two readings and the exit code,
    which leaves the outside as [e']. *)
Definition scriptSteps {E : Type} `{!OS E} (r : Runner E) (script : HostScriptResult)
    (installerPath : string) (e : E) (out : string) (code : Z) (xerr : option error)
    (result : HostScriptResultPayload) (serr : option error) (e' : E) : Prop :=
  exists e1 start e2 e3 stop e4,
    os_WriteFile (scriptPathOf script installerPath) (ScriptContents script) e = (None, e1) /\
    time_Now e1 = (start, e2) /\
    default scripts_ExecCmd (execCmdFn r) (scriptPathOf script installerPath) e2
    = ((out, code, xerr), e3) /\
    time_Now e3 = (stop, e4) /\
    result = mkPayload (ExecutionID script) out (seconds (stop - start)) code /\
    SaveHostScriptResult (OrbitClient r) result e4 = (serr, e').

(** The runner once its nil function fields were filled in: the directory
    function always, the other two when [exec] and [remove] say so. *)
Definition filledRunner {E : Type} `{!OS E} (r : Runner E) (exec remove : bool) : Runner E :=
  mkRunner (OsqueryClient r) (OrbitClient r)
    (Some (default os_TempDir (tempDirFn r)))
    (if exec then Some (default scripts_ExecCmd (execCmdFn r)) else execCmdFn r)
    (if remove then Some (default os_RemoveAll (removeAllFn r)) else removeAllFn r).

(** The calls of a job up to the installer, and the calls of one script. *)
Definition fetchEvents (installer : OrbitSoftwareInstaller) (res : QueryResponse)
    (s1 s2 : HostScriptResult) (d p : string) : list Event :=
  [EvQuery (PreInstallCondition installer) (inl res);
   EvGetHostScript (InstallScript installer) (inl s1);
   EvGetHostScript (PostInstallScript installer) (inl s2);
   EvTempDir d;
   EvGetInstaller (SoftwareId installer) d (inl p)].

Definition scriptEvents (script : HostScriptResult) (installerPath : string)
    (out : string) (code : Z) (xerr : option error) (result : HostScriptResultPayload)
    (serr : option error) : list Event :=
  [EvWriteFile (scriptPathOf script installerPath) (ScriptContents script) None;
   EvExecCmd (scriptPathOf script installerPath) out code xerr;
   EvSaveHostScriptResult result serr].

(** The log of one [InstallSoftware], with what it returns, exit by exit. *)
Inductive JobRun (installer : OrbitSoftwareInstaller) : option error -> list Event -> Prop :=
| QueryFails (e : error) :
    JobRun installer (Some (ctxerrWrap "precondition check" e))
      [EvQuery (PreInstallCondition installer) (inr e)]
| QueryStatusNonZero (res : QueryResponse) (e : error) :
    Code (Status res) <> 0 ->
    JobRun installer (Some (ctxerrWrap "" e))
      [EvQuery (PreInstallCondition installer) (inl res)]
| Skip (res : QueryResponse) :
    Code (Status res) = 0 -> Response res = [] ->
    JobRun installer None [EvQuery (PreInstallCondition installer) (inl res)]
| InstallScriptFetchFails (res : QueryResponse) (e : error) :
    proceeds res ->
    JobRun installer (Some e)
      [EvQuery (PreInstallCondition installer) (inl res);
       EvGetHostScript (InstallScript installer) (inr e)]
| PostInstallScriptFetchFails (res : QueryResponse) (s1 : HostScriptResult) (e : error) :
    proceeds res ->
    JobRun installer (Some e)
      [EvQuery (PreInstallCondition installer) (inl res);
       EvGetHostScript (InstallScript installer) (inl s1);
       EvGetHostScript (PostInstallScript installer) (inr e)]
| InstallerFetchFails (res : QueryResponse) (s1 s2 : HostScriptResult) (d : string)
    (e : error) :
    proceeds res ->
    JobRun installer (Some e)
      [EvQuery (PreInstallCondition installer) (inl res);
       EvGetHostScript (InstallScript installer) (inl s1);
       EvGetHostScript (PostInstallScript installer) (inl s2);
       EvTempDir d;
       EvGetInstaller (SoftwareId installer) d (inr e)]
| InstallScriptFails (res : QueryResponse) (s1 s2 : HostScriptResult) (d p : string)
    (e : error) (evs : list Event) (rerr : option error) :
    proceeds res ->
    ScriptRun s1 p (Some e) evs ->
    JobRun installer (Some e)
      ([EvQuery (PreInstallCondition installer) (inl res);
        EvGetHostScript (InstallScript installer) (inl s1);
        EvGetHostScript (PostInstallScript installer) (inl s2);
        EvTempDir d;
        EvGetInstaller (SoftwareId installer) d (inl p)]
       ++ evs ++ [EvRemoveAll d rerr])
| BothScriptsRun (res : QueryResponse) (s1 s2 : HostScriptResult) (d p : string)
    (err : option error) (evs1 evs2 : list Event) (rerr : option error) :
    proceeds res ->
    ScriptRun s1 p None evs1 ->
    ScriptRun s2 p err evs2 ->
    JobRun installer err
      ([EvQuery (PreInstallCondition installer) (inl res);
        EvGetHostScript (InstallScript installer) (inl s1);
        EvGetHostScript (PostInstallScript installer) (inl s2);
        EvTempDir d;
        EvGetInstaller (SoftwareId installer) d (inl p)]
       ++ evs1 ++ evs2 ++ [EvRemoveAll d rerr]).

(** *** Test doubles *)

(** The outside as the doubles keep it: the paths that exist, the clock, the
    results the server received, and what each script will do when run. *)
Record Machine : Type := mkMachine {
  files : list string;
  clock : Z;
  submitted : list HostScriptResultPayload;
  behaviour : string -> string * Z * option error
}.

(** [path] is [dir] or lies under it. *)
Definition under (dir path : string) : bool :=
  bool_decide (path = dir) || String.prefix (dir +:+ "/") path.

Definition pathExists (path : string) (m : Machine) : bool :=
  bool_decide (path ∈ files m).

(** An operating system double: the temporary directory is [/tmp], removal
    and writing succeed, a script does what [behaviour] says and takes two
    and a half seconds. *)
Definition osDouble : OS Machine :=
  mkOS Machine
    (fun m => ("/tmp", m))
    (fun path m =>
       (None, mkMachine (filter (fun f => under path f = false) (files m))
                (clock m) (submitted m) (behaviour m)))
    (fun name data m =>
       (None, mkMachine (files m ++ [name]) (clock m) (submitted m) (behaviour m)))
    (fun scriptPath m =>
       (behaviour m scriptPath,
        mkMachine (files m) (clock m + 2500000000) (submitted m) (behaviour m)))
    (fun m => (clock m, m)).

(** An osquery double that answers every query with [res]. *)
Definition queryDouble (res : QueryResponse + error) : QueryClient Machine :=
  mkQueryClient (fun _ m => (res, m)).

(** A server double: every script exists, the installer exists when
    [haveInstaller], and submitting a result gives [saveErr]. *)
Definition clientDouble (haveInstaller : bool) (saveErr : option error) : Client Machine :=
  mkClient
    (fun execID m =>
       (inl (mkHostScriptResult (Z.of_nat (String.length execID)) execID
               ("echo " +:+ execID)), m))
    (fun installerID downloadDir m =>
       if haveInstaller
       then (inl (filepath_Join downloadDir installerID),
             mkMachine (files m ++ [filepath_Join downloadDir installerID])
               (clock m) (submitted m) (behaviour m))
       else (inr (errorString "installer not found"), m))
    (fun result m =>
       (saveErr,
        match saveErr with
        | None => mkMachine (files m) (clock m) (submitted m ++ [result]) (behaviour m)
        | Some _ => m
        end)).

Definition oneRow : QueryResponse :=
  mkQueryResponse (mkStatus 0 "OK") [{[ "1" := "1" ]}].

Definition noRows : QueryResponse := mkQueryResponse (mkStatus 0 "OK") [].

(** A runner with all its function fields nil, as [NewRunner] builds it. *)
Definition runnerDouble (res : QueryResponse + error) (haveInstaller : bool)
    (saveErr : option error) : Runner Machine :=
  mkRunner (queryDouble res) (clientDouble haveInstaller saveErr) None None None.

Definition job : OrbitSoftwareInstaller :=
  mkInstaller "SELECT 1 FROM apps WHERE name = 'x'" "install" "post-install" "pkg".

(** A machine on which [/tmp] exists and every script prints [out] and ends
    with [exitCode] and the launch error [xerr]. *)
Definition machine (out : string) (exitCode : Z) (xerr : option error) : Machine :=
  mkMachine ["/tmp"] 0 [] (fun _ => (out, exitCode, xerr)).

Definition startWith (r : Runner Machine) (m : Machine) : World Machine :=
  mkWorld r m [].

(** The machine [m] later on: with other files, another time on the clock and
    other results at the server. *)
Definition later (m : Machine) (fs : list string) (t : Z)
    (results : list HostScriptResultPayload) : Machine :=
  mkMachine fs t results (behaviour m).

(** The two scripts of [job], as [clientDouble] serves them. *)
Definition installScriptDouble : HostScriptResult :=
  mkHostScriptResult 7 "install" "echo install".

Definition postInstallScriptDouble : HostScriptResult :=
  mkHostScriptResult 12 "post-install" "echo post-install".

(** What an execution strategy returns when it cannot start the process. *)
Definition cannotLaunch : error := errorString "fork/exec: permission denied".

Definition serverDown : error := errorString "POST /api/fleet/orbit/scripts/result: 503".

(** The error of a fetch that failed. *)
Definition fetchError (ev : Event) : option error :=
  match ev with
  | EvGetHostScript _ (inr e) | EvGetInstaller _ _ (inr e) => Some e
  | _ => None
  end.

(** A function field after a call: as it was, or filled in with the default
    when it was nil. *)
Definition filled {A : Type} (dflt : A) (before after : option A) : Prop :=
  after = before \/ (before = None /\ after = Some dflt).

(** A runner after a call: its two clients are the same and its function
    fields are as they were or filled in. *)
Definition keepsRunner {E : Type} `{!OS E} (r r' : Runner E) : Prop :=
  OsqueryClient r' = OsqueryClient r /\
  OrbitClient r' = OrbitClient r /\
  filled os_TempDir (tempDirFn r) (tempDirFn r') /\
  filled scripts_ExecCmd (execCmdFn r) (execCmdFn r') /\
  filled os_RemoveAll (removeAllFn r) (removeAllFn r').

End Installer.

(** ** server/service: the config receivers of [OrbitClient] *)

Module OrbitClient.

(** [fleet.OrbitConfigReceiver], as [ReceiverFunc] of orbit_client_test.go
    implements it: [Run] takes the configuration and returns an error; it may
    change the state [S] it closes over (the test's [called1], [called2]). *)
Definition Receiver (S Config : Type) : Type := Config -> S -> option error * S.

(** [OrbitClient], as far as the receivers go: the registration list. *)
Record OrbitClient (S Config : Type) : Type := mkOrbitClient {
  ConfigReceivers : list (Receiver S Config)
}.
Arguments mkOrbitClient {S Config} _.
Arguments ConfigReceivers {S Config} _.

(** One invocation of a receiver: its place in the registration list, the
    configuration it was given and what it returned. *)
Record Invocation (Config : Type) : Type := mkInvocation {
  position : nat;
  given : Config;
  returned : option error
}.
Arguments mkInvocation {Config} _ _ _.
Arguments position {Config} _.
Arguments given {Config} _.
Arguments returned {Config} _.

Record World (S Config : Type) : Type := mkWorld {
  st : S;
  invocations : list (Invocation Config)
}.
Arguments mkWorld {S Config} _ _.
Arguments st {S Config} _.
Arguments invocations {S Config} _.

Section Receivers.

Context {S Config : Type}.

Local Open Scope state_scope.

(** Modelled from the spec: [RegisterConfigReceiver] is a method of
    [OrbitClient] in server/service/orbit_client.go, which is not among the
    sources (its test is).  The spec: "appends [r] to the ordered registration
    list; no de-duplication, no removal API". *)
Definition RegisterConfigReceiver (oc : OrbitClient S Config) (cr : Receiver S Config)
    : OrbitClient S Config :=
  mkOrbitClient (ConfigReceivers oc ++ [cr]).

(** Modelled from the spec: one step of the fan-out, the call of the receiver
    registered at [i], logged with its result. *)
Definition run (i : nat) (cr : Receiver S Config) (cfg : Config)
    : State (World S Config) (option error) :=
  fun w =>
    let (err, s') := cr cfg (st w) in
    (err, mkWorld s' (invocations w ++ [mkInvocation i cfg err])).

(** Modelled from the spec: the loop over the receivers from position [i]
    on, [errs] being the failures recorded so far; a failure is recorded and
    the loop goes on. *)
Fixpoint runFrom (i : nat) (crs : list (Receiver S Config)) (cfg : Config)
    (errs : list error) : State (World S Config) (list error) :=
  match crs with
  | [] => ret errs
  | cr :: rest =>
      err <- run i cr cfg ;
      runFrom (Datatypes.S i) rest cfg
        (match err with
         | Some e => errs ++ [e]
         | None => errs
         end)
  end.

(** Modelled from the spec: [RunConfigReceivers] is a method of [OrbitClient]
    in server/service/orbit_client.go, which is not among the sources (its
    test is).  The spec: "invokes every registered receiver, in registration
    order, with the same configuration value; a receiver's failure is recorded
    but does not prevent subsequent receivers from running.  Return value: nil
    if all receivers succeeded, otherwise an aggregate error that preserves
    every individual failure". *)
Definition RunConfigReceivers (oc : OrbitClient S Config) (cfg : Config)
    : State (World S Config) (option error) :=
  errs <- runFrom 0 (ConfigReceivers oc) cfg [] ;
  match errs with
  | [] => ret None
  | _ => ret (Some (joinError errs))
  end.

End Receivers.

(** The invocations a run added to the log. *)
Definition newInvocations {S Config : Type} (w w' : World S Config)
    : list (Invocation Config) :=
  drop (length (invocations w)) (invocations w').

(** What calling the receivers [crs] one after the other amounts to, from the
    position [i] and the state [s]: each is called with [cfg] on the state the
    one before it left, whatever that one returned, and its invocation holds
    what it returned. *)
Inductive Ran {S Config : Type} (cfg : Config)
    : nat -> list (Receiver S Config) -> S -> list (Invocation Config) -> S -> Prop :=
| Ran_nil (i : nat) (s : S) : Ran cfg i [] s [] s
| Ran_cons (i : nat) (cr : Receiver S Config) (rest : list (Receiver S Config))
    (s s1 s2 : S) (err : option error) (invs : list (Invocation Config)) :
    cr cfg s = (err, s1) ->
    Ran cfg (Datatypes.S i) rest s1 invs s2 ->
    Ran cfg i (cr :: rest) s (mkInvocation i cfg err :: invs) s2.

(** *** The receivers of [TestConfigReceiverErrors] *)

Definition err1 : error := errorString "error1".
Definition err2 : error := errorString "error2".

(** The state is the pair [(called1, called2)]. *)
Definition rfunc1 : Receiver (bool * bool) unit := fun _ s => (None, (true, s.2)).
Definition rfunc2 : Receiver (bool * bool) unit := fun _ s => (None, (s.1, true)).
Definition efunc1 : Receiver (bool * bool) unit := fun _ s => (Some err1, s).
Definition efunc2 : Receiver (bool * bool) unit := fun _ s => (Some err2, s).

Definition testClient : OrbitClient (bool * bool) unit :=
  RegisterConfigReceiver
    (RegisterConfigReceiver
       (RegisterConfigReceiver
          (RegisterConfigReceiver (mkOrbitClient []) efunc1) rfunc1) efunc2) rfunc2.

End OrbitClient.

(** ** Facts: the commander *)

Module CommanderFacts.

Import Commander.

Section Enqueue.

Context {Store Apns Rand Manifest : Type} `{!Externals Rand Manifest}.

Implicit Types (svc : MDMAppleCommander Store Apns) (w : World Store Apns Rand).
Implicit Types (hostUUIDs failed : list string) (e cause : error).

Lemma collectFailed_acc (rs : list (string * Response)) (acc : list string) :
  collectFailed rs acc = acc ++ collectFailed rs [].
Proof.
  revert acc. induction rs as [|[u r] rs IH]; intros acc; simpl.
  - by rewrite app_nil_r.
  - rewrite IH. rewrite (IH (match Err r with Some _ => [u] | None => [] end)).
    destruct (Err r); simpl; [by rewrite <- app_assoc | done].
Qed.

Lemma collectFailed_elem (rs : list (string * Response)) (u : string) :
  u ∈ collectFailed rs [] <-> exists r, (u, r) ∈ rs /\ is_Some (Err r).
Proof.
  induction rs as [|[u' r'] rs IH]; simpl.
  - split; [intros H; inversion H | intros (r & H & _); inversion H].
  - rewrite collectFailed_acc, elem_of_app, IH. split.
    + intros [H | (r & Hin & Hr)].
      * destruct (Err r') eqn:E; [|inversion H].
        apply list_elem_of_singleton in H as ->.
        exists r'. split; [left | by rewrite E].
      * exists r. split; [by right | done].
    + intros (r & Hin & Hr). apply elem_of_cons in Hin as [Heq | Hin].
      * inversion Heq; subst. left. destruct Hr as [x ->]. by left.
      * right. by exists r.
Qed.

(** The failed identifiers are those of the map whose response holds an
    error, whatever the order of the loop. *)
Lemma collectFailed_lookup (m : gmap string Response) (u : string) :
  rangeVisitsAll ->
  u ∈ collectFailed (rangeOrder m) [] <-> exists r, m !! u = Some r /\ is_Some (Err r).
Proof.
  intros Hrange. rewrite collectFailed_elem. split; intros (r & H & Hr); exists r.
  - split; [|done]. apply elem_of_map_to_list. by rewrite <- (Hrange m).
  - split; [|done]. rewrite (Hrange m). by apply elem_of_map_to_list.
Qed.

(** What [sendNotifications] returns and leaves behind, from what [Push]
    answers. *)
Lemma sendNotifications_run svc hostUUIDs w resp perr p' :
  Push (pusher svc) hostUUIDs (pusher_st w) = ((resp, perr), p') ->
  sendNotifications svc hostUUIDs w =
    (match perr with
     | Some e => Some (ctxerrWrap "commander push" e)
     | None =>
         match collectFailed (rangeOrder resp) [] with
         | [] => None
         | failed => Some (APNSDeliveryError failed None)
         end
     end,
     mkWorld (storage_st w) p' (rand_st w) (calls w ++ [CallPush hostUUIDs])).
Proof.
  intros HP. unfold sendNotifications, bind, onPusher. rewrite HP.
  destruct perr as [e|]; [done|].
  by destruct (collectFailed (rangeOrder resp) []).
Qed.

(** The same for [EnqueueCommand], from what the decoder, the storage and
    [Push] answer. *)
Lemma EnqueueCommand_run svc hostUUIDs rawCommand userID fleetOwned w :
  EnqueueCommand svc hostUUIDs rawCommand userID fleetOwned w =
    match DecodeCommand rawCommand with
    | inr err => (Some (ctxerrWrap "decoding command" err), w)
    | inl cmd =>
        let (serr, s') :=
          store_EnqueueCommand (storage svc) hostUUIDs cmd userID fleetOwned (storage_st w) in
        let w1 := mkWorld s' (pusher_st w) (rand_st w)
                    (calls w ++ [CallEnqueueCommand hostUUIDs cmd userID fleetOwned]) in
        match serr with
        | Some e => (Some (ctxerrWrap "enqueuing command" e), w1)
        | None =>
            let (err, w2) := sendNotifications svc hostUUIDs w1 in
            (ctxerr_Wrap err "sending notifications", w2)
        end
    end.
Proof.
  unfold EnqueueCommand. destruct (DecodeCommand rawCommand) as [cmd|err]; [|done].
  unfold bind at 1. unfold onStorage.
  destruct (store_EnqueueCommand _ _ _ _ _ _) as [[e|] s']; [done|].
  unfold bind. destruct (sendNotifications _ _ _) as [[e|] w2]; done.
Qed.

(** The push outcome never reaches the storage: after [EnqueueCommand] the
    storage is in the state its own [EnqueueCommand] left, and the only call
    made on it is that one. *)
Lemma EnqueueCommand_storage_untouched_by_push
    svc hostUUIDs rawCommand userID fleetOwned w cmd serr s' :
  DecodeCommand rawCommand = inl cmd ->
  store_EnqueueCommand (storage svc) hostUUIDs cmd userID fleetOwned (storage_st w)
    = (serr, s') ->
  storage_st (EnqueueCommand svc hostUUIDs rawCommand userID fleetOwned w).2 = s' /\
  filter (fun c => isPush c = false)
    (calls (EnqueueCommand svc hostUUIDs rawCommand userID fleetOwned w).2)
  = filter (fun c => isPush c = false) (calls w)
    ++ [CallEnqueueCommand hostUUIDs cmd userID fleetOwned].
Proof.
  intros Hd Hs. rewrite EnqueueCommand_run, Hd, Hs.
  destruct serr as [e|]; simpl.
  - split; [done|]. by rewrite filter_app.
  - destruct (Push (pusher svc) hostUUIDs (pusher_st w)) as [[resp perr] p'] eqn:HP.
    erewrite sendNotifications_run by exact HP. simpl.
    split; [done|]. by rewrite !filter_app, app_nil_r.
Qed.


(** C5: [EnqueueCommand] decodes first and, on a malformed command, returns
    with the world as it was (nothing stored, nothing pushed); when the storage
    refuses the command it returns that error and the one call made is the
    storage's; when the storage accepts it, the push to all the targets is made
    next, whatever it will answer. *)
Theorem EnqueueCommand_decode_then_persist_then_push
    svc hostUUIDs rawCommand userID fleetOwned w :
  (forall err, DecodeCommand rawCommand = inr err ->
     EnqueueCommand svc hostUUIDs rawCommand userID fleetOwned w
     = (Some (ctxerrWrap "decoding command" err), w)) /\
  (forall cmd e s',
     DecodeCommand rawCommand = inl cmd ->
     store_EnqueueCommand (storage svc) hostUUIDs cmd userID fleetOwned (storage_st w)
       = (Some e, s') ->
     EnqueueCommand svc hostUUIDs rawCommand userID fleetOwned w
     = (Some (ctxerrWrap "enqueuing command" e),
        mkWorld s' (pusher_st w) (rand_st w)
          (calls w ++ [CallEnqueueCommand hostUUIDs cmd userID fleetOwned]))) /\
  (forall cmd s',
     DecodeCommand rawCommand = inl cmd ->
     store_EnqueueCommand (storage svc) hostUUIDs cmd userID fleetOwned (storage_st w)
       = (None, s') ->
     let w' := (EnqueueCommand svc hostUUIDs rawCommand userID fleetOwned w).2 in
     calls w' = calls w ++ [CallEnqueueCommand hostUUIDs cmd userID fleetOwned;
                            CallPush hostUUIDs] /\
     pusher_st w' = (Push (pusher svc) hostUUIDs (pusher_st w)).2 /\
     storage_st w' = s').
Proof.
  split; [|split].
  - intros err Hd. by rewrite EnqueueCommand_run, Hd.
  - intros cmd e s' Hd Hs. by rewrite EnqueueCommand_run, Hd, Hs.
  - intros cmd s' Hd Hs. rewrite EnqueueCommand_run, Hd, Hs. cbv beta iota zeta.
    destruct (Push (pusher svc) hostUUIDs (pusher_st w)) as [[resp perr] p'] eqn:HP.
    erewrite sendNotifications_run by exact HP. simpl.
    by rewrite <- app_assoc.
Qed.

(** C10: when [Push] itself returns an error [e], [sendNotifications] returns
    [e] under the plain wrapper "commander push", whatever the responses hold,
    so a delivery error is found in it only if [e] already was one, and
    [EnqueueCommand] returns that under "sending notifications"; a delivery
    error comes out of [sendNotifications] exactly when [Push] returned no
    error and some response holds one. *)
Theorem sendNotifications_push_error_is_plain
    svc hostUUIDs w resp perr p' :
  rangeVisitsAll ->
  Push (pusher svc) hostUUIDs (pusher_st w) = ((resp, perr), p') ->
  (forall e, perr = Some e ->
     (sendNotifications svc hostUUIDs w).1 = Some (ctxerrWrap "commander push" e) /\
     errors_As_APNS (ctxerrWrap "commander push" e) = errors_As_APNS e /\
     forall rawCommand userID fleetOwned cmd s',
       DecodeCommand rawCommand = inl cmd ->
       store_EnqueueCommand (storage svc) hostUUIDs cmd userID fleetOwned (storage_st w)
         = (None, s') ->
       (EnqueueCommand svc hostUUIDs rawCommand userID fleetOwned w).1
       = Some (ctxerrWrap "sending notifications" (ctxerrWrap "commander push" e))) /\
  ((exists failed (c : option error),
      (sendNotifications svc hostUUIDs w).1 = Some (APNSDeliveryError failed c))
   <-> perr = None /\ exists u r, resp !! u = Some r /\ is_Some (Err r)).
Proof.
  intros Hrange HP. split.
  - intros e ->. rewrite (sendNotifications_run _ _ _ _ _ _ HP). repeat split.
    intros rawCommand userID fleetOwned cmd s' Hd Hs.
    rewrite EnqueueCommand_run, Hd, Hs. cbv beta iota zeta.
    by erewrite sendNotifications_run by exact HP.
  - rewrite (sendNotifications_run _ _ _ _ _ _ HP). simpl.
    pose proof (collectFailed_lookup resp) as Hl.
    destruct perr as [e|].
    + split; [intros (f & c & [=]) | intros [[=] _]].
    + destruct (collectFailed (rangeOrder resp) []) as [|u l] eqn:E in |- *.
      * split; [intros (f & c & [=])|]. intros [_ (u & r & Hu)].
        assert (u ∈ @nil string) as Hin by (rewrite <- E; apply Hl; eauto).
        inversion Hin.
      * split; [|by eauto]. intros _. split; [done|].
        exists u. apply (Hl u Hrange). rewrite E. by left.
Qed.

(** The envelope builders that go through [getProfileCreator] attribute the
    command: a zero user id makes it owned by Fleet with no user, any other id
    makes it that user's. *)
Lemma getProfileCreator_attributed svc profIdent w userID fleetOwned :
  (getProfileCreator svc profIdent w).1 = (userID, fleetOwned, None) ->
  attributed userID fleetOwned = true /\
  (fleetOwned = true <->
     (GetProfileUserID (storage svc) profIdent (storage_st w)).1.1 = 0).
Proof.
  unfold getProfileCreator, bind, onStorage.
  destruct (GetProfileUserID _ _ _) as [[uid [e|]] s']; simpl; [done|].
  destruct (Z.eqb_spec uid 0) as [->|Hne]; simpl; intros [= <- <-]; split; try done.
Qed.

(** The attributions handed to the storage by one [EnqueueCommand]: the one
    it was called with, once the command decodes. *)
Lemma EnqueueCommand_attribution svc hostUUIDs rawCommand userID fleetOwned w :
  omap attributionOf (calls (EnqueueCommand svc hostUUIDs rawCommand userID fleetOwned w).2)
  = omap attributionOf (calls w)
    ++ match DecodeCommand rawCommand with
       | inl _ => [(userID, fleetOwned)]
       | inr _ => []
       end.
Proof.
  rewrite EnqueueCommand_run. destruct (DecodeCommand rawCommand) as [cmd|err].
  - destruct (store_EnqueueCommand _ _ _ _ _ _) as [[e|] s']; cbv beta iota zeta.
    + simpl. by rewrite omap_app.
    + destruct (Push (pusher svc) hostUUIDs (pusher_st w)) as [[resp perr] p'] eqn:HP.
      erewrite sendNotifications_run by exact HP. simpl.
      by rewrite !omap_app, app_nil_r.
  - simpl. by rewrite app_nil_r.
Qed.

(** [InstallEnterpriseApplication] and [AccountConfiguration] hand the storage
    a command owned by Fleet, with no user. *)
Lemma InstallEnterpriseApplication_fleet_owned svc hostUUIDs uuid manifestURL w :
  Forall (fun a => a = (None, true))
    (drop (length (omap attributionOf (calls w)))
       (omap attributionOf
          (calls (InstallEnterpriseApplication svc hostUUIDs uuid manifestURL w).2))).
Proof.
  unfold InstallEnterpriseApplication. rewrite EnqueueCommand_attribution.
  rewrite drop_app_length. destruct (DecodeCommand _); by repeat constructor.
Qed.

Lemma AccountConfiguration_fleet_owned svc hostUUIDs uuid fullName userName w :
  Forall (fun a => a = (None, true))
    (drop (length (omap attributionOf (calls w)))
       (omap attributionOf
          (calls (AccountConfiguration svc hostUUIDs uuid fullName userName w).2))).
Proof.
  unfold AccountConfiguration. rewrite EnqueueCommand_attribution.
  rewrite drop_app_length. destruct (DecodeCommand _); by repeat constructor.
Qed.

(** The variant with the embedded manifest hands the storage neither a user
    nor the ownership flag. *)
Lemma InstallEnterpriseApplicationWithEmbeddedManifest_attribution
    svc hostUUIDs uuid (manifest : Manifest) w :
  Forall (fun a => a = (None, false))
    (drop (length (omap attributionOf (calls w)))
       (omap attributionOf
          (calls (InstallEnterpriseApplicationWithEmbeddedManifest
                    svc hostUUIDs uuid manifest w).2))).
Proof.
  unfold InstallEnterpriseApplicationWithEmbeddedManifest.
  destruct (plist_Marshal _) as [raw|err].
  - rewrite EnqueueCommand_attribution, drop_app_length.
    destruct (DecodeCommand _); by repeat constructor.
  - simpl. rewrite drop_all. constructor.
Qed.

End Enqueue.

(** *** The secret of [DeviceLock] and [EraseDevice] *)

Lemma string_app_cons (x : Ascii.ascii) (a b : string) :
  String x a +:+ b = String x (a +:+ b).
Proof. reflexivity. Qed.

Lemma string_app_assoc (a b c : string) : (a +:+ b) +:+ c = a +:+ (b +:+ c).
Proof.
  induction a as [|x a IH]; [reflexivity|].
  by rewrite !string_app_cons, IH.
Qed.

Lemma string_length_app (a b : string) :
  String.length (a +:+ b) = (String.length a + String.length b)%nat.
Proof.
  induction a as [|x a IH]; [reflexivity|].
  rewrite string_app_cons. simpl. by rewrite IH.
Qed.

Lemma allDigits_app (a b : string) :
  allDigits (a +:+ b) = allDigits a && allDigits b.
Proof.
  induction a as [|x a IH]; [reflexivity|].
  rewrite string_app_cons. simpl. by rewrite IH, andb_assoc.
Qed.

Lemma fixedDigits_length (width : nat) (v : Z) :
  String.length (fixedDigits width v) = width.
Proof.
  revert v. induction width as [|k IH]; intros v; [reflexivity|].
  cbn [fixedDigits]. rewrite string_length_app, IH. cbn [String.length]. lia.
Qed.

Lemma fixedDigits_allDigits (width : nat) (v : Z) :
  allDigits (fixedDigits width v) = true.
Proof.
  revert v. induction width as [|k IH]; intros v; [reflexivity|].
  cbn [fixedDigits]. rewrite allDigits_app, IH. cbn [allDigits andb].
  unfold isDigit.
  assert (0 <= v mod 10 < 10) as Hm by (apply Z.mod_pos_bound; lia).
  rewrite Ascii.nat_ascii_embedding by lia.
  rewrite andb_true_r. apply andb_true_intro.
  split; apply Nat.leb_le; lia.
Qed.

(** The pin of the model: six digits, and the source moved on by one draw. *)
Lemma GenerateRandomPin_model_six (r : RandomSource) :
  String.length (GenerateRandomPin_model 6 r).1 = 6%nat /\
  allDigits (GenerateRandomPin_model 6 r).1 = true /\
  drawn (GenerateRandomPin_model 6 r).2 = S (drawn r).
Proof.
  unfold GenerateRandomPin_model. cbn [fst snd drawn].
  split; [apply fixedDigits_length|]. split; [apply fixedDigits_allDigits | done].
Qed.

Lemma string_app_nil_r (a : string) : a +:+ "" = a.
Proof. induction a as [|x a IH]; [reflexivity|]. by rewrite string_app_cons, IH. Qed.

(** **** Reading a value back off a rendered command *)

Lemma clash_prefix (pat s X : string) :
  clash pat s = true -> String.prefix pat (s +:+ X) = false.
Proof.
  revert s. induction pat as [|a p IH]; intros [|b r]; try done.
  rewrite string_app_cons. cbn [clash String.prefix].
  destruct (Ascii.eqb_spec a b) as [->|Hne].
  - intros H. destruct (Ascii.ascii_dec b b); [by apply IH | done].
  - intros _. by destruct (Ascii.ascii_dec a b).
Qed.

Lemma textAfter_unfold (pat s : string) :
  textAfter pat s =
    if String.prefix pat s
    then Some (String.substring (String.length pat) (String.length s - String.length pat) s)
    else match s with
         | EmptyString => None
         | String _ r => textAfter pat r
         end.
Proof. by destruct s. Qed.

Lemma textBefore_unfold (pat s : string) :
  textBefore pat s =
    if String.prefix pat s
    then Some EmptyString
    else match s with
         | EmptyString => None
         | String a r => option_map (String a) (textBefore pat r)
         end.
Proof. by destruct s. Qed.

(** A text in which no occurrence of [pat] starts is skipped by the search. *)
Lemma textAfter_skip (pat a X : string) :
  clashes pat a = true -> textAfter pat (a +:+ X) = textAfter pat X.
Proof.
  induction a as [|c a IH]; [done|].
  cbn [clashes]. intros [Hc Hr]%andb_true_iff.
  rewrite textAfter_unfold, (clash_prefix _ _ _ Hc), string_app_cons. by apply IH.
Qed.

Lemma textBefore_skip (pat a X : string) :
  clashes pat a = true ->
  textBefore pat (a +:+ X) = option_map (String.append a) (textBefore pat X).
Proof.
  induction a as [|c a IH].
  { intros _. change (EmptyString +:+ X) with X. by destruct (textBefore pat X). }
  cbn [clashes]. intros [Hc Hr]%andb_true_iff.
  rewrite textBefore_unfold, (clash_prefix _ _ _ Hc), string_app_cons, (IH Hr).
  by destruct (textBefore pat X).
Qed.

Lemma substring_all (s : string) : String.substring 0 (String.length s) s = s.
Proof. induction s as [|c s IH]; [done|]. cbn. by rewrite IH. Qed.

Lemma substring_app (pat X : string) :
  String.substring (String.length pat) (String.length (pat +:+ X) - String.length pat)
    (pat +:+ X) = X.
Proof.
  rewrite string_length_app.
  replace (String.length pat + String.length X - String.length pat)%nat
    with (String.length X) by lia.
  induction pat as [|a p IH]; [apply substring_all|].
  rewrite string_app_cons. cbn [String.length String.substring]. apply IH.
Qed.

Lemma prefix_split (pat L : string) :
  String.prefix pat L = true -> exists b, L = pat +:+ b.
Proof.
  revert L. induction pat as [|a p IH]; intros L; [by exists L|].
  destruct L as [|c L]; [done|]. cbn [String.prefix].
  destruct (Ascii.ascii_dec a c) as [->|]; [|done].
  intros [b ->]%IH. by exists b.
Qed.

Lemma prefix_app_long (pat L X : string) :
  (String.length pat <= String.length L)%nat ->
  String.prefix pat (L +:+ X) = String.prefix pat L.
Proof.
  revert L. induction pat as [|a p IH]; intros L; [by destruct L, X|].
  destruct L as [|c L]; cbn [String.length]; [lia|]. intros Hlen.
  rewrite string_app_cons. cbn [String.prefix].
  destruct (Ascii.ascii_dec a c); [apply IH; lia | done].
Qed.

Lemma prefix_length (pat L : string) :
  String.prefix pat L = true -> (String.length pat <= String.length L)%nat.
Proof.
  intros [b ->]%prefix_split. rewrite string_length_app. lia.
Qed.

Lemma textAfter_length (pat L rest : string) :
  textAfter pat L = Some rest -> (String.length pat <= String.length L)%nat.
Proof.
  induction L as [|c L IH]; rewrite textAfter_unfold;
    destruct (String.prefix pat _) eqn:Hp; try done.
  - intros _. by apply prefix_length.
  - intros _. by apply prefix_length.
  - intros H%IH. cbn [String.length]. lia.
Qed.

(** The first occurrence of [pat] in [L] is the first one in [L +:+ X] too. *)
Lemma textAfter_within (pat L X rest : string) :
  textAfter pat L = Some rest -> textAfter pat (L +:+ X) = Some (rest +:+ X).
Proof.
  induction L as [|c L IH]; intros H.
  - rewrite textAfter_unfold in H. destruct (String.prefix pat "") eqn:Hp; [|done].
    apply prefix_split in Hp as [b Hb]. destruct pat; [|done]. destruct b; [|done].
    injection H as <-. cbn. rewrite textAfter_unfold.
    destruct X; cbn; [done|]. by rewrite Nat.sub_0_r, substring_all.
  - pose proof (textAfter_length _ _ _ H) as Hlen.
    rewrite textAfter_unfold in H. rewrite textAfter_unfold, prefix_app_long by done.
    destruct (String.prefix pat (String c L)) eqn:Hp.
    + apply prefix_split in Hp as [b Hb]. rewrite Hb in H |- *.
      rewrite substring_app in H. injection H as <-.
      by rewrite string_app_assoc, substring_app.
    + rewrite string_app_cons. by apply IH.
Qed.

Lemma noMarkup_clashes (p u : string) :
  noMarkup u = true -> clashes (String lessThan p) u = true.
Proof.
  induction u as [|c u IH]; [done|].
  cbn [noMarkup clashes clash]. intros [Hc Hu]%andb_true_iff.
  rewrite Ascii.eqb_sym. destruct (Ascii.eqb c lessThan); [done|]. by rewrite IH.
Qed.

Lemma allDigits_noMarkup (s : string) : allDigits s = true -> noMarkup s = true.
Proof.
  induction s as [|c s IH]; [done|].
  cbn [allDigits noMarkup]. intros [Hc Hs]%andb_true_iff. rewrite (IH Hs), andb_true_r.
  destruct (Ascii.eqb_spec c lessThan) as [->|]; [|done].
  by vm_compute in Hc.
Qed.

(** The [PIN] key of a rendered [DeviceLock] or [EraseDevice] command reads
    back as the pin it was rendered with, when neither the command UUID nor
    the pin holds a tag of its own. *)
Lemma pinOf_deviceLockRaw (uuid pin : string) :
  noMarkup uuid = true -> noMarkup pin = true ->
  pinOf (deviceLockRaw uuid pin) = Some pin.
Proof.
  intros Hu Hp. unfold pinOf, plistString, deviceLockRaw.
  change ("<key>" +:+ "PIN" +:+ "</key>") with "<key>PIN</key>".
  rewrite (textAfter_skip "<key>PIN</key>" plistProlog) by (vm_compute; reflexivity).
  rewrite (textAfter_skip "<key>PIN</key>") by (vm_compute; reflexivity).
  rewrite (textAfter_skip "<key>PIN</key>" uuid) by (by apply noMarkup_clashes).
  erewrite (textAfter_within "<key>PIN</key>") by (vm_compute; reflexivity).
  cbn [mbind option_bind].
  erewrite (textAfter_within "<string>") by (vm_compute; reflexivity).
  cbn [mbind option_bind].
  change (EmptyString +:+ ?x) with x.
  rewrite (textBefore_skip "</string>" pin) by (by apply noMarkup_clashes).
  match goal with |- context [textBefore ?p ?l] =>
    change (textBefore p l) with (Some EmptyString) end.
  cbn [option_map]. by rewrite string_app_nil_r.
Qed.

Lemma pinOf_eraseDeviceRaw (uuid pin : string) :
  noMarkup uuid = true -> noMarkup pin = true ->
  pinOf (eraseDeviceRaw uuid pin) = Some pin.
Proof.
  intros Hu Hp. unfold pinOf, plistString, eraseDeviceRaw.
  change ("<key>" +:+ "PIN" +:+ "</key>") with "<key>PIN</key>".
  rewrite (textAfter_skip "<key>PIN</key>" plistProlog) by (vm_compute; reflexivity).
  rewrite (textAfter_skip "<key>PIN</key>") by (vm_compute; reflexivity).
  rewrite (textAfter_skip "<key>PIN</key>" uuid) by (by apply noMarkup_clashes).
  erewrite (textAfter_within "<key>PIN</key>") by (vm_compute; reflexivity).
  cbn [mbind option_bind].
  erewrite (textAfter_within "<string>") by (vm_compute; reflexivity).
  cbn [mbind option_bind].
  change (EmptyString +:+ ?x) with x.
  rewrite (textBefore_skip "</string>" pin) by (by apply noMarkup_clashes).
  match goal with |- context [textBefore ?p ?l] =>
    change (textBefore p l) with (Some EmptyString) end.
  cbn [option_map]. by rewrite string_app_nil_r.
Qed.

Section SecretFacts.

Context {Store Apns Manifest : Type} `{!Externals RandomSource Manifest}.

Implicit Types (svc : MDMAppleCommander Store Apns) (w : World Store Apns RandomSource).

(** What [DeviceLock] returns and leaves behind, from what the generator, the
    decoder and the storage answer. *)
Lemma DeviceLock_run svc host uuid w :
  DeviceLock svc host uuid w =
    let (pin, r') := GenerateRandomPin 6 (rand_st w) in
    match DecodeCommand (deviceLockRaw uuid pin) with
    | inr err =>
        (Some (ctxerrWrap "decoding command" err),
         mkWorld (storage_st w) (pusher_st w) r' (calls w))
    | inl cmd =>
        let (serr, s') :=
          EnqueueDeviceLockCommand (storage svc) host cmd pin (storage_st w) in
        let w1 := mkWorld s' (pusher_st w) r'
                    (calls w ++ [CallEnqueueDeviceLockCommand host cmd pin]) in
        match serr with
        | Some e => (Some (ctxerrWrap "enqueuing for DeviceLock" e), w1)
        | None =>
            let (err, w2) := sendNotifications svc [UUID host] w1 in
            (ctxerr_Wrap err "sending notifications for DeviceLock", w2)
        end
    end.
Proof.
  unfold DeviceLock, bind at 1. unfold onRand.
  destruct (GenerateRandomPin 6 (rand_st w)) as [pin r'].
  destruct (DecodeCommand _) as [cmd|err]; [|done].
  unfold bind at 1. unfold onStorage. cbn [storage_st pusher_st rand_st calls].
  destruct (EnqueueDeviceLockCommand _ _ _ _ _) as [[e|] s']; [done|].
  unfold bind. destruct (sendNotifications _ _ _) as [[e|] w2]; done.
Qed.

Lemma EraseDevice_run svc host uuid w :
  EraseDevice svc host uuid w =
    let (pin, r') := GenerateRandomPin 6 (rand_st w) in
    match DecodeCommand (eraseDeviceRaw uuid pin) with
    | inr err =>
        (Some (ctxerrWrap "decoding command" err),
         mkWorld (storage_st w) (pusher_st w) r' (calls w))
    | inl cmd =>
        let (serr, s') :=
          EnqueueDeviceWipeCommand (storage svc) host cmd (storage_st w) in
        let w1 := mkWorld s' (pusher_st w) r'
                    (calls w ++ [CallEnqueueDeviceWipeCommand host cmd]) in
        match serr with
        | Some e => (Some (ctxerrWrap "enqueuing for DeviceWipe" e), w1)
        | None =>
            let (err, w2) := sendNotifications svc [UUID host] w1 in
            (ctxerr_Wrap err "sending notifications for DeviceWipe", w2)
        end
    end.
Proof.
  unfold EraseDevice, bind at 1. unfold onRand.
  destruct (GenerateRandomPin 6 (rand_st w)) as [pin r'].
  destruct (DecodeCommand _) as [cmd|err]; [|done].
  unfold bind at 1. unfold onStorage. cbn [storage_st pusher_st rand_st calls].
  destruct (EnqueueDeviceWipeCommand _ _ _ _) as [[e|] s']; [done|].
  unfold bind. destruct (sendNotifications _ _ _) as [[e|] w2]; done.
Qed.

(** After a call on the storage, [sendNotifications] adds the push and leaves
    the rest of the world alone. *)
Lemma sendNotifications_after svc hostUUIDs w :
  exists rest,
    calls (sendNotifications svc hostUUIDs w).2 = calls w ++ rest /\
    Forall (fun c => isPush c = true) rest /\
    rand_st (sendNotifications svc hostUUIDs w).2 = rand_st w /\
    storage_st (sendNotifications svc hostUUIDs w).2 = storage_st w.
Proof.
  destruct (Push (pusher svc) hostUUIDs (pusher_st w)) as [[resp perr] p'] eqn:HP.
  rewrite (sendNotifications_run svc hostUUIDs w resp perr p' HP).
  exists [CallPush hostUUIDs]. cbn [snd calls rand_st storage_st].
  split; [done|]. split; [by repeat constructor | done].
Qed.

(** What [DeviceLock] does once its command decodes: one call on the storage,
    with the pin next to the command, then the push when the storage took it;
    the storage is left as that one call left it. *)
Lemma DeviceLock_calls svc host uuid w cmd :
  let pin := (GenerateRandomPin 6 (rand_st w)).1 in
  DecodeCommand (deviceLockRaw uuid pin) = inl cmd ->
  exists rest,
    calls (DeviceLock svc host uuid w).2
    = calls w ++ CallEnqueueDeviceLockCommand host cmd pin :: rest /\
    Forall (fun c => isPush c = true) rest /\
    rand_st (DeviceLock svc host uuid w).2 = (GenerateRandomPin 6 (rand_st w)).2 /\
    storage_st (DeviceLock svc host uuid w).2
    = (EnqueueDeviceLockCommand (storage svc) host cmd pin (storage_st w)).2.
Proof.
  intros pin. subst pin. rewrite DeviceLock_run.
  destruct (GenerateRandomPin 6 (rand_st w)) as [pin r']. cbn [fst snd].
  intros ->.
  destruct (EnqueueDeviceLockCommand _ _ _ _ _) as [[e|] s']; cbv beta iota zeta.
  - exists []. by repeat split.
  - match goal with |- context [sendNotifications svc ?h ?w1] =>
      destruct (sendNotifications_after svc h w1) as (rest & Hc & Hp & Hr & Hs);
      destruct (sendNotifications svc h w1) as [err w2] end.
    cbn [snd calls rand_st storage_st] in *. exists rest.
    rewrite Hc, Hr, Hs, <- app_assoc. by repeat split.
Qed.

(** The same for [EraseDevice]: the call on the storage takes the command
    only. *)
Lemma EraseDevice_calls svc host uuid w cmd :
  let pin := (GenerateRandomPin 6 (rand_st w)).1 in
  DecodeCommand (eraseDeviceRaw uuid pin) = inl cmd ->
  exists rest,
    calls (EraseDevice svc host uuid w).2
    = calls w ++ CallEnqueueDeviceWipeCommand host cmd :: rest /\
    Forall (fun c => isPush c = true) rest /\
    rand_st (EraseDevice svc host uuid w).2 = (GenerateRandomPin 6 (rand_st w)).2 /\
    storage_st (EraseDevice svc host uuid w).2
    = (EnqueueDeviceWipeCommand (storage svc) host cmd (storage_st w)).2.
Proof.
  intros pin. subst pin. rewrite EraseDevice_run.
  destruct (GenerateRandomPin 6 (rand_st w)) as [pin r']. cbn [fst snd].
  intros ->.
  destruct (EnqueueDeviceWipeCommand _ _ _ _) as [[e|] s']; cbv beta iota zeta.
  - exists []. by repeat split.
  - match goal with |- context [sendNotifications svc ?h ?w1] =>
      destruct (sendNotifications_after svc h w1) as (rest & Hc & Hp & Hr & Hs);
      destruct (sendNotifications svc h w1) as [err w2] end.
    cbn [snd calls rand_st storage_st] in *. exists rest.
    rewrite Hc, Hr, Hs, <- app_assoc. by repeat split.
Qed.

End SecretFacts.


(** *** The commander run against the doubles *)

#[local] Existing Instance externalsDouble.

(** C1, at three targets of which the second one's push fails with
    [tokenInactive]: the command is stored for all three and stays so, the
    error returned is a delivery error that lists the failing target, and its
    [Err] field holds the nil error of [Push], not the cause the response of
    that target holds. *)
Theorem EnqueueCommand_delivery_error_holds_no_cause :
  let svc := mkCommander (memStore (fun _ => 0)) (flakyPusher ["h2"] tokenInactive) in
  let hostUUIDs := ["h1"; "h2"; "h3"] in
  let r := EnqueueCommand svc hostUUIDs sampleCommand None true world0 in
  (Push (pusher svc) hostUUIDs 0%nat).1.1 !! "h2" = Some (mkResponse "h2" (Some tokenInactive))
  /\ r.1 = Some (ctxerrWrap "sending notifications" (APNSDeliveryError ["h2"] None))
  /\ (forall err, r.1 = Some err -> errors_Is err tokenInactive = false)
  /\ storage_st r.2 = [RowCommand "h1" sampleDecoded None true;
                       RowCommand "h2" sampleDecoded None true;
                       RowCommand "h3" sampleDecoded None true].
Proof.
  cbv zeta. split; [by vm_compute|]. split; [by vm_compute|]. split.
  - intros err. vm_compute. by intros [= <-].
  - by vm_compute.
Qed.

(** C2, at the variant with the embedded manifest: the command reaches the
    storage with no user and not owned by Fleet, so neither side of the
    attribution holds. *)
Theorem InstallEnterpriseApplicationWithEmbeddedManifest_not_attributed :
  let svc := mkCommander (memStore (fun _ => 0)) (flakyPusher [] tokenInactive) in
  let r := InstallEnterpriseApplicationWithEmbeddedManifest svc ["h1"] "u-2" "<dict/>" world0 in
  r.1 = None
  /\ omap attributionOf (calls r.2) = [(None, false)]
  /\ Forall (fun a => attributed a.1 a.2 = false) (omap attributionOf (calls r.2)).
Proof.
  cbv zeta. split; [by vm_compute|]. split; [by vm_compute|].
  vm_compute. by repeat constructor.
Qed.

Lemma externalsDouble_rangeVisitsAll : rangeVisitsAll.
Proof. intros m. reflexivity. Qed.

(** C5 at the doubles: a command that decodes and is stored is followed by the
    push to both targets. *)
Lemma EnqueueCommand_decode_then_persist_then_push_witness :
  calls (EnqueueCommand (svcDouble []) ["h1"; "h2"] sampleCommand None true world0).2
  = calls world0 ++ [CallEnqueueCommand ["h1"; "h2"] sampleDecoded None true;
                     CallPush ["h1"; "h2"]].
Proof.
  destruct (EnqueueCommand_decode_then_persist_then_push
              (svcDouble []) ["h1"; "h2"] sampleCommand None true world0)
    as (_ & _ & H).
  refine (proj1 (H sampleDecoded
                   [RowCommand "h1" sampleDecoded None true;
                    RowCommand "h2" sampleDecoded None true] _ _)).
  - vm_compute. reflexivity.
  - vm_compute. reflexivity.
Defined.

(** C10 at a transport that is down: the error comes back under the plain
    wrapper. *)
Lemma sendNotifications_push_error_is_plain_witness :
  (sendNotifications svcPushDown ["h1"] world0).1 = Some (ctxerrWrap "commander push" apnsDown).
Proof.
  refine (proj1 (proj1 (sendNotifications_push_error_is_plain
                          svcPushDown ["h1"] world0 ∅ (Some apnsDown) 1%nat
                          externalsDouble_rangeVisitsAll _) apnsDown eq_refl)).
  reflexivity.
Defined.

(** The decoder of the doubles keeps the text it decoded. *)
Lemma decodeDouble_keepsText : keepsText externalsDouble.
Proof.
  intros raw cmd. cbn. unfold decodeDouble.
  destruct (plistString "CommandUUID" raw) as [u|]; [|done].
  destruct (plistString "RequestType" raw) as [rt|]; [|done].
  destruct (_ || _); [done|]. by intros [= <-].
Qed.


(** *** More on the builders *)

Section Builders.

Context {Store Apns Rand Manifest : Type} `{!Externals Rand Manifest}.

Implicit Types (svc : MDMAppleCommander Store Apns) (w : World Store Apns Rand).
Implicit Types (hostUUIDs : list string).

Lemma newCalls_app w w' (new : list Call) :
  calls w' = calls w ++ new -> newCalls w w' = new.
Proof. intros H. unfold newCalls. by rewrite H, drop_app_length. Qed.

Lemma EnqueueCommand_calls svc hostUUIDs rawCommand userID fleetOwned w :
  calls (EnqueueCommand svc hostUUIDs rawCommand userID fleetOwned w).2
  = calls w ++ enqueueCalls svc hostUUIDs rawCommand userID fleetOwned w.
Proof.
  rewrite EnqueueCommand_run. unfold enqueueCalls.
  destruct (DecodeCommand rawCommand) as [cmd|err]; [|by rewrite app_nil_r].
  destruct (store_EnqueueCommand _ _ _ _ _ _) as [[e|] s']; cbv beta iota zeta; [done|].
  destruct (Push (pusher svc) hostUUIDs (pusher_st w)) as [[resp perr] p'] eqn:HP.
  erewrite sendNotifications_run by exact HP. cbn [fst snd calls].
  by rewrite <- app_assoc.
Qed.

Lemma EnqueueCommand_newCalls svc hostUUIDs rawCommand userID fleetOwned w :
  newCalls w (EnqueueCommand svc hostUUIDs rawCommand userID fleetOwned w).2
  = enqueueCalls svc hostUUIDs rawCommand userID fleetOwned w.
Proof. apply newCalls_app, EnqueueCommand_calls. Qed.

(** [EnqueueCommand] returns the nil error exactly when the command decodes,
    the storage takes it, [Push] returns no error and no response holds one. *)
Theorem EnqueueCommand_nil_iff svc hostUUIDs rawCommand userID fleetOwned w :
  rangeVisitsAll ->
  (EnqueueCommand svc hostUUIDs rawCommand userID fleetOwned w).1 = None <->
  exists cmd s' resp p',
    DecodeCommand rawCommand = inl cmd /\
    store_EnqueueCommand (storage svc) hostUUIDs cmd userID fleetOwned (storage_st w)
      = (None, s') /\
    Push (pusher svc) hostUUIDs (pusher_st w) = ((resp, None), p') /\
    forall u r, resp !! u = Some r -> Err r = None.
Proof.
  intros Hrange. rewrite EnqueueCommand_run.
  destruct (DecodeCommand rawCommand) as [cmd|err];
    [|split; [done | by intros (? & ? & ? & ? & [=] & _)]].
  destruct (store_EnqueueCommand _ _ _ _ _ _) as [[e|] s'] eqn:Hs; cbv beta iota zeta;
    [split; [done | intros (? & ? & ? & ? & [= <-] & Hs' & _); congruence]|].
  destruct (Push (pusher svc) hostUUIDs (pusher_st w)) as [[resp perr] p'] eqn:HP.
  erewrite sendNotifications_run by exact HP.
  pose proof (collectFailed_lookup resp) as Hl.
  destruct perr as [e|]; cbn [fst ctxerr_Wrap];
    [split; [done | by intros (? & ? & ? & ? & _ & _ & [=] & _)]|].
  destruct (collectFailed (rangeOrder resp) []) as [|u l] eqn:E in |- *; cbn [ctxerr_Wrap].
  - split; [|done]. intros _. exists cmd, s', resp, p'.
    split; [done|]. split; [done|]. split; [done|].
    intros u r Hu. destruct (Err r) as [x|] eqn:Hx; [|done].
    assert (u ∈ @nil string) as Hin.
    { rewrite <- E. apply Hl; [done|]. exists r. by rewrite Hx. }
    inversion Hin.
  - split; [done|]. intros (cmd' & s'' & resp' & p'' & _ & _ & [= <- <-] & Hnone).
    assert (u ∈ collectFailed (rangeOrder resp) []) as Hin by (rewrite E; left).
    apply (Hl u Hrange) in Hin as (r & Hu & [x Hx]).
    by rewrite (Hnone u r Hu) in Hx.
Qed.

(** What [getProfileCreator] returns and leaves behind. *)
Lemma getProfileCreator_run svc profIdent w :
  getProfileCreator svc profIdent w =
    let '((uid, err), s') := GetProfileUserID (storage svc) profIdent (storage_st w) in
    (match err with
     | Some e => (None, false, Some e)
     | None => (creatorOf uid, None)
     end,
     mkWorld s' (pusher_st w) (rand_st w) (calls w ++ [CallGetProfileUserID profIdent])).
Proof.
  unfold getProfileCreator, bind, onStorage, creatorOf.
  destruct (GetProfileUserID _ _ _) as [[uid [e|]] s']; [done|].
  by destruct (uid =? 0).
Qed.

(** When the lookup of the profile's user fails, [InstallProfile] and
    [RemoveProfile] return that error under their own message, and the lookup is
    the one call they made: nothing is stored and nothing is pushed. *)
Theorem profile_commands_abort_on_failed_lookup
    svc hostUUIDs profile uuid profIdent w uid e s' :
  GetProfileUserID (storage svc) profIdent (storage_st w) = ((uid, Some e), s') ->
  InstallProfile svc hostUUIDs profile uuid profIdent w
  = (Some (ctxerrWrap "commander install profile get user id" e),
     mkWorld s' (pusher_st w) (rand_st w) (calls w ++ [CallGetProfileUserID profIdent])) /\
  RemoveProfile svc hostUUIDs profIdent uuid w
  = (Some (ctxerrWrap "commander remove profile get user id" e),
     mkWorld s' (pusher_st w) (rand_st w) (calls w ++ [CallGetProfileUserID profIdent])).
Proof.
  intros HG. unfold InstallProfile, RemoveProfile, bind.
  by rewrite getProfileCreator_run, HG.
Qed.

(** When the lookup gives the user id [uid], the command [InstallProfile] and
    [RemoveProfile] hand to the storage carries the attribution of that id (no
    user and owned by Fleet for zero, that user otherwise), which is a proper
    attribution; they hand over nothing only when they return an error. *)
Theorem profile_commands_carry_the_creator
    svc hostUUIDs profile uuid profIdent w uid s' :
  GetProfileUserID (storage svc) profIdent (storage_st w) = ((uid, None), s') ->
  let attributions (r : option error * World Store Apns Rand) :=
      omap attributionOf (newCalls w r.2) in
  let ok (r : option error * World Store Apns Rand) :=
      attributions r = [creatorOf uid] \/ (attributions r = [] /\ is_Some r.1) in
  attributed (creatorOf uid).1 (creatorOf uid).2 = true /\
  ok (InstallProfile svc hostUUIDs profile uuid profIdent w) /\
  ok (RemoveProfile svc hostUUIDs profIdent uuid w).
Proof.
  intros HG attributions ok. subst attributions ok. cbv beta.
  split; [unfold creatorOf, attributed; by destruct (uid =? 0)|].
  assert (forall raw msg,
    let r := bind (EnqueueCommand svc hostUUIDs raw (creatorOf uid).1 (creatorOf uid).2)
               (fun err => ret (ctxerr_Wrap err msg))
               (mkWorld s' (pusher_st w) (rand_st w)
                  (calls w ++ [CallGetProfileUserID profIdent])) in
    omap attributionOf (newCalls w r.2) = [creatorOf uid] \/
    (omap attributionOf (newCalls w r.2) = [] /\ is_Some r.1)) as Hboth.
  { intros raw msg r. subst r. unfold bind, ret.
    match goal with |- context [EnqueueCommand svc hostUUIDs raw ?u ?f ?w1] =>
      pose proof (EnqueueCommand_calls svc hostUUIDs raw u f w1) as Hnew;
      pose proof (EnqueueCommand_run svc hostUUIDs raw u f w1) as Hrun;
      destruct (EnqueueCommand svc hostUUIDs raw u f w1) as [err w2] end.
    cbn [fst snd calls] in *. rewrite <- app_assoc in Hnew.
    rewrite (newCalls_app _ _ _ Hnew). unfold enqueueCalls.
    cbn [app omap list_omap attributionOf].
    destruct (DecodeCommand raw) as [cmd|derr].
    - left. destruct (store_EnqueueCommand _ _ _ _ _ _).1; cbn; by destruct (creatorOf uid).
    - right. split; [done|]. injection Hrun as -> _. by eexists. }
  assert (exists raw,
            InstallProfile svc hostUUIDs profile uuid profIdent w
            = bind (EnqueueCommand svc hostUUIDs raw (creatorOf uid).1 (creatorOf uid).2)
                (fun err => ret (ctxerr_Wrap err "commander install profile"))
                (mkWorld s' (pusher_st w) (rand_st w)
                   (calls w ++ [CallGetProfileUserID profIdent]))) as [rawI ->].
  { eexists. unfold InstallProfile. unfold bind at 1.
    rewrite getProfileCreator_run, HG. cbv beta iota zeta.
    destruct (creatorOf uid); reflexivity. }
  assert (exists raw,
            RemoveProfile svc hostUUIDs profIdent uuid w
            = bind (EnqueueCommand svc hostUUIDs raw (creatorOf uid).1 (creatorOf uid).2)
                (fun err => ret (ctxerr_Wrap err "commander remove profile"))
                (mkWorld s' (pusher_st w) (rand_st w)
                   (calls w ++ [CallGetProfileUserID profIdent]))) as [rawR ->].
  { eexists. unfold RemoveProfile. unfold bind at 1.
    rewrite getProfileCreator_run, HG. cbv beta iota zeta.
    destruct (creatorOf uid); reflexivity. }
  split; apply Hboth.
Qed.

(** [InstallEnterpriseApplication] and [AccountConfiguration] hand the storage
    commands owned by Fleet with no user, and nothing else. *)
Theorem system_commands_are_fleet_owned
    svc hostUUIDs uuid manifestURL fullName userName w :
  Forall (fun a => a = (None, true))
    (omap attributionOf
       (newCalls w (InstallEnterpriseApplication svc hostUUIDs uuid manifestURL w).2)) /\
  Forall (fun a => a = (None, true))
    (omap attributionOf
       (newCalls w (AccountConfiguration svc hostUUIDs uuid fullName userName w).2)).
Proof.
  unfold InstallEnterpriseApplication, AccountConfiguration.
  rewrite !EnqueueCommand_newCalls. unfold enqueueCalls.
  split;
    (match goal with |- context [DecodeCommand ?raw] =>
       destruct (DecodeCommand raw) as [cmd|err] end);
    [|by constructor| |by constructor];
    destruct (store_EnqueueCommand _ _ _ _ _ _).1; cbn; by repeat constructor.
Qed.

(** [DeviceLock] and [EraseDevice] step by step, for any source of
    randomness. *)
Lemma DeviceLock_steps svc host uuid w :
  DeviceLock svc host uuid w =
    let (pin, r') := GenerateRandomPin 6 (rand_st w) in
    match DecodeCommand (deviceLockRaw uuid pin) with
    | inr err =>
        (Some (ctxerrWrap "decoding command" err),
         mkWorld (storage_st w) (pusher_st w) r' (calls w))
    | inl cmd =>
        let (serr, s') :=
          EnqueueDeviceLockCommand (storage svc) host cmd pin (storage_st w) in
        let w1 := mkWorld s' (pusher_st w) r'
                    (calls w ++ [CallEnqueueDeviceLockCommand host cmd pin]) in
        match serr with
        | Some e => (Some (ctxerrWrap "enqueuing for DeviceLock" e), w1)
        | None =>
            let (err, w2) := sendNotifications svc [UUID host] w1 in
            (ctxerr_Wrap err "sending notifications for DeviceLock", w2)
        end
    end.
Proof.
  unfold DeviceLock, bind at 1. unfold onRand.
  destruct (GenerateRandomPin 6 (rand_st w)) as [pin r'].
  destruct (DecodeCommand _) as [cmd|err]; [|done].
  unfold bind at 1. unfold onStorage. cbn [storage_st pusher_st rand_st calls].
  destruct (EnqueueDeviceLockCommand _ _ _ _ _) as [[e|] s']; [done|].
  unfold bind. destruct (sendNotifications _ _ _) as [[e|] w2]; done.
Qed.

Lemma EraseDevice_steps svc host uuid w :
  EraseDevice svc host uuid w =
    let (pin, r') := GenerateRandomPin 6 (rand_st w) in
    match DecodeCommand (eraseDeviceRaw uuid pin) with
    | inr err =>
        (Some (ctxerrWrap "decoding command" err),
         mkWorld (storage_st w) (pusher_st w) r' (calls w))
    | inl cmd =>
        let (serr, s') :=
          EnqueueDeviceWipeCommand (storage svc) host cmd (storage_st w) in
        let w1 := mkWorld s' (pusher_st w) r'
                    (calls w ++ [CallEnqueueDeviceWipeCommand host cmd]) in
        match serr with
        | Some e => (Some (ctxerrWrap "enqueuing for DeviceWipe" e), w1)
        | None =>
            let (err, w2) := sendNotifications svc [UUID host] w1 in
            (ctxerr_Wrap err "sending notifications for DeviceWipe", w2)
        end
    end.
Proof.
  unfold EraseDevice, bind at 1. unfold onRand.
  destruct (GenerateRandomPin 6 (rand_st w)) as [pin r'].
  destruct (DecodeCommand _) as [cmd|err]; [|done].
  unfold bind at 1. unfold onStorage. cbn [storage_st pusher_st rand_st calls].
  destruct (EnqueueDeviceWipeCommand _ _ _ _) as [[e|] s']; [done|].
  unfold bind. destruct (sendNotifications _ _ _) as [[e|] w2]; done.
Qed.

(** [DeviceLock] stops at the first failure: a command that does not decode
    is neither stored nor pushed; when the storage refuses the command nothing
    is pushed; when it takes it, the one push goes to the host's own UUID. *)
Theorem DeviceLock_fails_fast svc host uuid w :
  let pin := (GenerateRandomPin 6 (rand_st w)).1 in
  let r := DeviceLock svc host uuid w in
  (forall err, DecodeCommand (deviceLockRaw uuid pin) = inr err ->
     r.1 = Some (ctxerrWrap "decoding command" err) /\ newCalls w r.2 = []) /\
  (forall cmd e s',
     DecodeCommand (deviceLockRaw uuid pin) = inl cmd ->
     EnqueueDeviceLockCommand (storage svc) host cmd pin (storage_st w) = (Some e, s') ->
     r.1 = Some (ctxerrWrap "enqueuing for DeviceLock" e) /\
     newCalls w r.2 = [CallEnqueueDeviceLockCommand host cmd pin]) /\
  (forall cmd s',
     DecodeCommand (deviceLockRaw uuid pin) = inl cmd ->
     EnqueueDeviceLockCommand (storage svc) host cmd pin (storage_st w) = (None, s') ->
     newCalls w r.2 = [CallEnqueueDeviceLockCommand host cmd pin; CallPush [UUID host]] /\
     storage_st r.2 = s').
Proof.
  intros pin r. subst pin r. rewrite DeviceLock_steps.
  destruct (GenerateRandomPin 6 (rand_st w)) as [pin r']. cbn [fst snd].
  split; [|split].
  - intros err ->. split; [done|]. apply newCalls_app. by rewrite app_nil_r.
  - intros cmd e s' -> ->. split; [done|]. by apply newCalls_app.
  - intros cmd s' -> ->. cbv beta iota zeta.
    match goal with |- context [sendNotifications svc ?h ?w1] =>
      destruct (Push (pusher svc) h (pusher_st w1)) as [[resp perr] p'] eqn:HP;
      rewrite (sendNotifications_run svc h w1 resp perr p' HP) end.
    cbn [fst snd calls storage_st].
    split; [|done]. apply newCalls_app. by rewrite <- app_assoc.
Qed.

(** The same for [EraseDevice]. *)
Theorem EraseDevice_fails_fast svc host uuid w :
  let pin := (GenerateRandomPin 6 (rand_st w)).1 in
  let r := EraseDevice svc host uuid w in
  (forall err, DecodeCommand (eraseDeviceRaw uuid pin) = inr err ->
     r.1 = Some (ctxerrWrap "decoding command" err) /\ newCalls w r.2 = []) /\
  (forall cmd e s',
     DecodeCommand (eraseDeviceRaw uuid pin) = inl cmd ->
     EnqueueDeviceWipeCommand (storage svc) host cmd (storage_st w) = (Some e, s') ->
     r.1 = Some (ctxerrWrap "enqueuing for DeviceWipe" e) /\
     newCalls w r.2 = [CallEnqueueDeviceWipeCommand host cmd]) /\
  (forall cmd s',
     DecodeCommand (eraseDeviceRaw uuid pin) = inl cmd ->
     EnqueueDeviceWipeCommand (storage svc) host cmd (storage_st w) = (None, s') ->
     newCalls w r.2 = [CallEnqueueDeviceWipeCommand host cmd; CallPush [UUID host]] /\
     storage_st r.2 = s').
Proof.
  intros pin r. subst pin r. rewrite EraseDevice_steps.
  destruct (GenerateRandomPin 6 (rand_st w)) as [pin r']. cbn [fst snd].
  split; [|split].
  - intros err ->. split; [done|]. apply newCalls_app. by rewrite app_nil_r.
  - intros cmd e s' -> ->. split; [done|]. by apply newCalls_app.
  - intros cmd s' -> ->. cbv beta iota zeta.
    match goal with |- context [sendNotifications svc ?h ?w1] =>
      destruct (Push (pusher svc) h (pusher_st w1)) as [[resp perr] p'] eqn:HP;
      rewrite (sendNotifications_run svc h w1 resp perr p' HP) end.
    cbn [fst snd calls storage_st].
    split; [|done]. apply newCalls_app. by rewrite <- app_assoc.
Qed.

(** When the decoder refuses the command a builder rendered, the builder
    stores nothing and pushes nothing: it returns the decoder's error, wrapped,
    and the world is as it was, but for the profile lookup of the two profile
    builders, which comes first. *)
Theorem undecodable_commands_are_never_stored_or_pushed
    svc hostUUIDs profile uuid profIdent manifestURL (manifest : Manifest)
    fullName userName w :
  (forall err uid s',
     DecodeCommand (installProfileRaw uuid (base64_EncodeToString profile)) = inr err ->
     GetProfileUserID (storage svc) profIdent (storage_st w) = ((uid, None), s') ->
     InstallProfile svc hostUUIDs profile uuid profIdent w
     = (Some (ctxerrWrap "commander install profile" (ctxerrWrap "decoding command" err)),
        mkWorld s' (pusher_st w) (rand_st w) (calls w ++ [CallGetProfileUserID profIdent]))) /\
  (forall err uid s',
     DecodeCommand (removeProfileRaw uuid profIdent) = inr err ->
     GetProfileUserID (storage svc) profIdent (storage_st w) = ((uid, None), s') ->
     RemoveProfile svc hostUUIDs profIdent uuid w
     = (Some (ctxerrWrap "commander remove profile" (ctxerrWrap "decoding command" err)),
        mkWorld s' (pusher_st w) (rand_st w) (calls w ++ [CallGetProfileUserID profIdent]))) /\
  (forall err,
     DecodeCommand (installEnterpriseApplicationRaw manifestURL uuid) = inr err ->
     InstallEnterpriseApplication svc hostUUIDs uuid manifestURL w
     = (Some (ctxerrWrap "decoding command" err), w)) /\
  (forall raw err,
     plist_Marshal (mkCommandPayload uuid (mkIEAPayload manifest "InstallEnterpriseApplication"))
     = inl raw ->
     DecodeCommand raw = inr err ->
     InstallEnterpriseApplicationWithEmbeddedManifest svc hostUUIDs uuid manifest w
     = (Some (ctxerrWrap "decoding command" err), w)) /\
  (forall err,
     DecodeCommand (accountConfigurationRaw fullName userName uuid) = inr err ->
     AccountConfiguration svc hostUUIDs uuid fullName userName w
     = (Some (ctxerrWrap "decoding command" err), w)).
Proof.
  split; [|split; [|split; [|split]]].
  - intros err uid s' Hd HG. unfold InstallProfile, bind.
    fold (installProfileRaw uuid (base64_EncodeToString profile)).
    rewrite getProfileCreator_run, HG. destruct (creatorOf uid) as [userID fleetOwned].
    by rewrite EnqueueCommand_run, Hd.
  - intros err uid s' Hd HG. unfold RemoveProfile, bind.
    fold (removeProfileRaw uuid profIdent).
    rewrite getProfileCreator_run, HG. destruct (creatorOf uid) as [userID fleetOwned].
    by rewrite EnqueueCommand_run, Hd.
  - intros err Hd. unfold InstallEnterpriseApplication.
    fold (installEnterpriseApplicationRaw manifestURL uuid).
    by rewrite EnqueueCommand_run, Hd.
  - intros raw err Hm Hd. unfold InstallEnterpriseApplicationWithEmbeddedManifest.
    by rewrite Hm, EnqueueCommand_run, Hd.
  - intros err Hd. unfold AccountConfiguration.
    fold (accountConfigurationRaw fullName userName uuid).
    by rewrite EnqueueCommand_run, Hd.
Qed.

End Builders.

(** *** The builders run against the doubles *)

Lemma EnqueueCommand_storage_untouched_by_push_witness :
  storage_st (EnqueueCommand (svcDouble ["h2"]) ["h1"; "h2"] sampleCommand None true world0).2
  = [RowCommand "h1" sampleDecoded None true; RowCommand "h2" sampleDecoded None true].
Proof.
  refine (proj1 (EnqueueCommand_storage_untouched_by_push
                   (svcDouble ["h2"]) ["h1"; "h2"] sampleCommand None true world0
                   sampleDecoded None _ _ _)).
  - vm_compute. reflexivity.
  - vm_compute. reflexivity.
Defined.


Lemma EnqueueCommand_nil_iff_witness :
  (EnqueueCommand (svcDouble ["h2"]) ["h1"; "h2"] sampleCommand None true world0).1 <> None.
Proof.
  intros Hnil.
  apply (EnqueueCommand_nil_iff (svcDouble ["h2"]) ["h1"; "h2"] sampleCommand None true
           world0 externalsDouble_rangeVisitsAll) in Hnil
    as (cmd & s' & resp & p' & _ & _ & HP & Hnone).
  injection HP as <- _.
  specialize (Hnone "h2" (mkResponse "h2" (Some tokenInactive))).
  discriminate Hnone. vm_compute. reflexivity.
Defined.

Lemma getProfileCreator_attributed_witness :
  attributed (Some 7) false = true.
Proof.
  refine (proj1 (getProfileCreator_attributed svcUserOwned "com.example.wifi" world0
                   (Some 7) false _)).
  reflexivity.
Defined.

Lemma profile_commands_abort_on_failed_lookup_witness :
  (InstallProfile svcStorageDown ["h1"] "payload" "u-1" "com.example.wifi" world0).1
  = Some (ctxerrWrap "commander install profile get user id" storageDown).
Proof.
  exact (f_equal fst
           (proj1 (profile_commands_abort_on_failed_lookup svcStorageDown ["h1"] "payload"
                     "u-1" "com.example.wifi" world0 0 storageDown [] eq_refl))).
Defined.

Lemma profile_commands_carry_the_creator_witness :
  omap attributionOf
    (newCalls world0
       (InstallProfile svcUserOwned ["h1"] "payload" "u-1" "com.example.wifi" world0).2)
  = [(Some 7, false)].
Proof.
  destruct (profile_commands_carry_the_creator svcUserOwned ["h1"] "payload" "u-1"
              "com.example.wifi" world0 7 [] eq_refl)
    as (_ & [H | [H _]] & _).
  - exact H.
  - vm_compute in H. discriminate H.
Defined.

Lemma DeviceLock_fails_fast_witness :
  newCalls world0 (DeviceLock svcStorageDown (mkHost "h1") "u-3" world0).2
  = [CallEnqueueDeviceLockCommand (mkHost "h1")
       (mkCommand "u-3" "DeviceLock" (deviceLockRaw "u-3" "000042")) "000042"].
Proof.
  destruct (DeviceLock_fails_fast svcStorageDown (mkHost "h1") "u-3" world0)
    as (_ & H & _).
  refine (proj2 (H (mkCommand "u-3" "DeviceLock" (deviceLockRaw "u-3" "000042"))
                   storageDown [] _ _)).
  - vm_compute. reflexivity.
  - reflexivity.
Defined.

Lemma EraseDevice_fails_fast_witness :
  newCalls world0 (EraseDevice (svcDouble []) (mkHost "h1") "u-3" world0).2
  = [CallEnqueueDeviceWipeCommand (mkHost "h1")
       (mkCommand "u-3" "EraseDevice" (eraseDeviceRaw "u-3" "000042"));
     CallPush ["h1"]].
Proof.
  destruct (EraseDevice_fails_fast (svcDouble []) (mkHost "h1") "u-3" world0)
    as (_ & _ & H).
  refine (proj1 (H (mkCommand "u-3" "EraseDevice" (eraseDeviceRaw "u-3" "000042"))
                   [RowWipe "h1" (mkCommand "u-3" "EraseDevice"
                                    (eraseDeviceRaw "u-3" "000042"))] _ _)).
  - vm_compute. reflexivity.
  - vm_compute. reflexivity.
Defined.

(** A profile command rendered with an empty command UUID, which the decoder
    of the doubles refuses: the storage holds nothing afterwards and the log
    holds the lookup only. *)
Lemma undecodable_commands_are_never_stored_or_pushed_witness :
  let r := InstallProfile (svcDouble []) ["h1"] "payload" "" "com.example.wifi" world0 in
  r.1 = Some (ctxerrWrap "commander install profile"
                (ctxerrWrap "decoding command" (errorString "invalid command"))) /\
  storage_st r.2 = [] /\
  calls r.2 = [CallGetProfileUserID "com.example.wifi"].
Proof.
  cbv zeta.
  destruct (undecodable_commands_are_never_stored_or_pushed
              (svcDouble []) ["h1"] "payload" "" "com.example.wifi"
              "https://example.com/manifest.plist" "<dict/>" "Ada Lovelace" "ada" world0)
    as (H & _).
  rewrite (H (errorString "invalid command") 0 []).
  - by repeat split.
  - vm_compute. reflexivity.
  - reflexivity.
Defined.

End CommanderFacts.

(** ** Facts: the installer runner *)

Module InstallerFacts.

Import Installer.

(** Membership in a list written out. *)
Ltac in_list :=
  cbn [app]; repeat (first [apply list_elem_of_here | apply list_elem_of_further]).

Section Runner.

Context {E : Type} `{!OS E}.

Implicit Types (w : World E) (script : HostScriptResult) (installer : OrbitSoftwareInstaller).

Lemma newEvents_app w w' (new : list Event) :
  events w' = events w ++ new -> newEvents w w' = new.
Proof. intros H. unfold newEvents. by rewrite H, drop_app_length. Qed.

(** One [runInstallerScript] extends the log by a [ScriptRun] and returns what
    that run returns; of the runner it can only fill in [execCmdFn]. *)
Lemma runInstallerScript_ScriptRun script installerPath w :
  exists new,
    events (runInstallerScript script installerPath w).2 = events w ++ new /\
    ScriptRun script installerPath (runInstallerScript script installerPath w).1 new /\
    removeAllFn (runner (runInstallerScript script installerPath w).2)
    = removeAllFn (runner w).
Proof.
  unfold runInstallerScript, bind, call, now, getRunner, setRunner, ret.
  fold (scriptPathOf script installerPath).
  destruct (os_WriteFile _ _ _) as [[e|] e1]; cbn [fst snd events runner env removeAllFn].
  - eexists. split; [done|]. split; [constructor | done].
  - destruct (time_Now e1) as [start e2].
    cbn [fst snd events runner env removeAllFn execCmdFn].
    destruct (default scripts_ExecCmd (execCmdFn (runner w)) _ e2) as [[[out code] xerr] e3].
    cbn [fst snd events runner env removeAllFn].
    destruct (time_Now e3) as [stop e4].
    cbn [fst snd events runner env removeAllFn OrbitClient].
    destruct (SaveHostScriptResult _ _ e4) as [[e|] e5];
      cbn [fst snd events runner env removeAllFn];
      (eexists; split; [by rewrite <- !app_assoc|]; split; [|done]).
    + apply (Executed script installerPath out code xerr _ (Some e)).
    + apply (Executed script installerPath out code xerr _ None).
Qed.

(** One [InstallSoftware] extends the log by a [JobRun] and returns what that
    run returns; when the log ends with a removal, the outside is left as that
    removal left it. *)
Lemma InstallSoftware_JobRun installer w :
  exists new,
    events (InstallSoftware installer w).2 = events w ++ new /\
    JobRun installer (InstallSoftware installer w).1 new /\
    (forall d rerr, last new = Some (EvRemoveAll d rerr) ->
       exists e0, default os_RemoveAll (removeAllFn (runner w)) d e0
                  = (rerr, env (InstallSoftware installer w).2)).
Proof.
  unfold InstallSoftware, preConditionCheck, bind, call, getRunner, setRunner, ret.
  destruct (Query _ _ _) as [[res|e] e1]; cbn [fst snd events runner env];
    [|eexists; split; [done|]; split; [constructor | done]].
  destruct (Z.eqb_spec (Code (Status res)) 0) as [Hcode|Hcode]; cbn [negb];
    [|eexists; split; [done|]; split; [by constructor | done]].
  destruct (Response res) as [|row rows] eqn:Hrows; cbn [length Nat.ltb Nat.leb negb];
    [eexists; split; [done|]; split; [by constructor | done]|].
  assert (proceeds res) as Hres by (split; [done | by rewrite Hrows]).
  cbn [fst snd events runner env OrbitClient].
  destruct (GetHostScript _ (InstallScript installer) _) as [[s1|e] e2];
    cbn [fst snd events runner env];
    [|eexists; split; [by rewrite <- !app_assoc|]; split; [by constructor | done]].
  destruct (GetHostScript _ (PostInstallScript installer) _) as [[s2|e] e3];
    cbn [fst snd events runner env];
    [|eexists; split; [by rewrite <- !app_assoc|]; split; [by constructor | done]].
  destruct (default os_TempDir (tempDirFn (runner w)) e3) as [d e4].
  cbn [fst snd events runner env OrbitClient].
  destruct (GetInstaller _ _ d e4) as [[p|e] e5]; cbn [fst snd events runner env];
    [|eexists; split; [by rewrite <- !app_assoc|]; split; [by constructor | done]].
  unfold defer, removeTmpDir, bind, call, getRunner, setRunner, ret.
  match goal with |- context [runInstallerScript s1 p ?w5] =>
    destruct (runInstallerScript_ScriptRun s1 p w5) as (evs1 & Hev1 & Hrun1 & Hrm1);
    destruct (runInstallerScript s1 p w5) as [[e|] w6] end;
    cbn [fst snd events runner env removeAllFn] in *.
  - destruct (default os_RemoveAll (removeAllFn (runner w6)) d (env w6)) as [rerr e7] eqn:Hrm.
    cbn [fst snd events runner env]. rewrite Hev1.
    exists ([EvQuery (PreInstallCondition installer) (inl res);
             EvGetHostScript (InstallScript installer) (inl s1);
             EvGetHostScript (PostInstallScript installer) (inl s2);
             EvTempDir d;
             EvGetInstaller (SoftwareId installer) d (inl p)]
            ++ evs1 ++ [EvRemoveAll d rerr]).
    split; [by rewrite <- !app_assoc|]. split; [by constructor|].
    intros d' rerr'. rewrite !app_assoc, last_snoc. intros [= <- <-].
    exists (env w6). by rewrite <- Hrm1.
  - match goal with |- context [runInstallerScript s2 p ?w7] =>
      destruct (runInstallerScript_ScriptRun s2 p w7) as (evs2 & Hev2 & Hrun2 & Hrm2);
      destruct (runInstallerScript s2 p w7) as [err w8] end;
      cbn [fst snd events runner env removeAllFn] in *.
    destruct err as [e|];
      destruct (default os_RemoveAll (removeAllFn (runner w8)) d (env w8)) as [rerr e9] eqn:Hrm;
      cbn [fst snd events runner env]; rewrite Hev2, Hev1;
      (exists ([EvQuery (PreInstallCondition installer) (inl res);
                EvGetHostScript (InstallScript installer) (inl s1);
                EvGetHostScript (PostInstallScript installer) (inl s2);
                EvTempDir d;
                EvGetInstaller (SoftwareId installer) d (inl p)]
               ++ evs1 ++ evs2 ++ [EvRemoveAll d rerr]));
      (split; [by rewrite <- !app_assoc|]; split; [by econstructor|]);
      intros d' rerr'; rewrite !app_assoc, last_snoc; intros [= <- <-];
      exists (env w8); by rewrite <- Hrm1, <- Hrm2.
Qed.

(** The events of a job come out of [newEvents] as the [JobRun] has them. *)
Lemma InstallSoftware_newEvents installer w :
  JobRun installer (InstallSoftware installer w).1
    (newEvents w (InstallSoftware installer w).2) /\
  (forall d rerr,
     last (newEvents w (InstallSoftware installer w).2) = Some (EvRemoveAll d rerr) ->
     exists e0, default os_RemoveAll (removeAllFn (runner w)) d e0
                = (rerr, env (InstallSoftware installer w).2)).
Proof.
  destruct (InstallSoftware_JobRun installer w) as (new & Hev & Hrun & Hrm).
  by rewrite (newEvents_app _ _ _ Hev).
Qed.

(** A script run that fails holds a failed write or a failed submission, and
    a script run that holds either fails: a launch error is not among the
    causes. *)
Lemma ScriptRun_error_iff script installerPath (err : option error) (evs : list Event) :
  ScriptRun script installerPath err evs ->
  is_Some err <-> existsb writeFailed evs || existsb saveFailed evs = true.
Proof.
  intros [e | out code xerr t [e|]]; cbn; split; try done; try by eauto.
Qed.

(** C8: when the precondition query answers with status zero and no rows, the
    job ends with the nil error and the query is the one call it made: nothing
    is fetched, no script is executed and no result is submitted. *)
Theorem InstallSoftware_skips_on_empty_result installer w res e' :
  Query (OsqueryClient (runner w)) (PreInstallCondition installer) (env w) = (inl res, e') ->
  Code (Status res) = 0 ->
  Response res = [] ->
  let r := InstallSoftware installer w in
  r.1 = None /\
  newEvents w r.2 = [EvQuery (PreInstallCondition installer) (inl res)] /\
  filter (fun ev => isFetch ev = true) (newEvents w r.2) = [] /\
  execsOf (newEvents w r.2) = [] /\
  savedOf (newEvents w r.2) = [].
Proof.
  intros HQ Hcode Hrows r. subst r.
  unfold InstallSoftware, preConditionCheck, bind, call, getRunner, ret.
  rewrite HQ. cbn [fst snd events runner env]. rewrite Hcode, Hrows.
  cbn [Z.eqb negb length Nat.ltb Nat.leb fst snd].
  erewrite (newEvents_app w _ [EvQuery (PreInstallCondition installer) (inl res)])
    by reflexivity.
  by repeat split.
Qed.

(** What [runInstallerScript] does when the outside answers as [scriptSteps]
    says: it returns the server's answer to the submission, wrapped when it is
    an error, leaves the outside as the submission left it, and logs the
    three calls. *)
Lemma runInstallerScript_steps script installerPath w out code xerr result serr e' :
  scriptSteps (runner w) script installerPath (env w) out code xerr result serr e' ->
  runInstallerScript script installerPath w
  = (option_map (fmtWrap "save script result: ") serr,
     mkWorld
       (mkRunner (OsqueryClient (runner w)) (OrbitClient (runner w)) (tempDirFn (runner w))
          (Some (default scripts_ExecCmd (execCmdFn (runner w)))) (removeAllFn (runner w)))
       e'
       (events w ++ scriptEvents script installerPath out code xerr result serr)).
Proof.
  intros (e1 & start & e2 & e3 & stop & e4 & Hw & Hs & Hx & Ht & -> & Hsave).
  unfold runInstallerScript, bind, call, now, getRunner, setRunner, ret.
  fold (scriptPathOf script installerPath).
  rewrite Hw. cbn [fst snd events runner env execCmdFn].
  rewrite Hs. cbn [fst snd events runner env execCmdFn].
  rewrite Hx. cbn [fst snd events runner env execCmdFn].
  rewrite Ht. cbn [fst snd events runner env OrbitClient].
  rewrite Hsave. unfold scriptEvents.
  destruct serr; cbn [fst snd events runner env option_map]; by rewrite <- !app_assoc.
Qed.

(** C7: when the precondition says proceed, the scripts and the installer are
    fetched, and the install script is written, runs to completion (the
    execution strategy returns no error) with the exit code [code], which is
    not zero, and the server accepts its result, then that result, which holds
    the script's execution id, its output and [code], is what the server was
    given, and the job goes on with the post-install script from there; it
    returns what that script's run returns, and nil when the post-install
    script is written and its result accepted too, whatever its exit code. *)
Theorem InstallSoftware_nonzero_exit_is_data installer w res s1 s2 d p e5 out code result e10 :
  fetched (runner w) installer (env w) res s1 s2 d p e5 ->
  scriptSteps (runner w) s1 p e5 out code None result None e10 ->
  code <> 0 ->
  let w10 := mkWorld (filledRunner (runner w) true false) e10
               (events w ++ fetchEvents installer res s1 s2 d p
                         ++ scriptEvents s1 p out code None result None) in
  (pExecutionID result = ExecutionID s1 /\ Output result = out /\ ExitCode result = code) /\
  InstallSoftware installer w = defer (removeTmpDir d) (runInstallerScript s2 p) w10 /\
  forall out2 code2 xerr2 result2 e15 rerr e16,
    scriptSteps (runner w) s2 p e10 out2 code2 xerr2 result2 None e15 ->
    default os_RemoveAll (removeAllFn (runner w)) d e15 = (rerr, e16) ->
    InstallSoftware installer w
    = (None,
       mkWorld (filledRunner (runner w) true true) e16
         (events w10 ++ scriptEvents s2 p out2 code2 xerr2 result2 None
                   ++ [EvRemoveAll d rerr])).
Proof.
  intros (e1 & e2 & e3 & e4 & HQ & [Hcode Hrows] & Hs1 & Hs2 & Hd & Hp) Hrun1 Hnz w10.
  assert (InstallSoftware installer w
          = defer (removeTmpDir d) (runInstallerScript s2 p) w10) as Hgo.
  { unfold InstallSoftware, preConditionCheck, bind, call, getRunner, setRunner, ret.
    rewrite HQ. cbn [fst snd events runner env]. rewrite Hcode.
    destruct (Response res) as [|row rows]; [done|].
    cbn [Z.eqb negb length Nat.ltb Nat.leb fst snd events runner env OrbitClient].
    rewrite Hs1. cbn [fst snd events runner env].
    rewrite Hs2. cbn [fst snd events runner env].
    rewrite Hd. cbn [fst snd events runner env OrbitClient].
    rewrite Hp. cbn [fst snd events runner env].
    unfold defer at 1, bind.
    erewrite (runInstallerScript_steps s1 p) by exact Hrun1.
    cbn [option_map fst snd runner env events OsqueryClient OrbitClient tempDirFn execCmdFn
         removeAllFn].
    unfold defer, w10, filledRunner, fetchEvents. rewrite <- !app_assoc. cbn [app].
    match goal with |- context [runInstallerScript s2 p ?w'] =>
      by destruct (runInstallerScript s2 p w') as [[e|] w''] end. }
  split.
  { destruct Hrun1 as (? & ? & ? & ? & ? & ? & _ & _ & _ & _ & -> & _). done. }
  split; [exact Hgo|].
  intros out2 code2 xerr2 result2 e15 rerr e16 Hrun2 Hrm.
  rewrite Hgo. unfold defer.
  erewrite (runInstallerScript_steps s2 p) by exact Hrun2.
  unfold removeTmpDir, bind, call, getRunner, setRunner, ret.
  cbn [option_map fst snd runner env events OsqueryClient OrbitClient tempDirFn execCmdFn
       removeAllFn w10 filledRunner].
  rewrite Hrm. cbn [fst snd]. by rewrite <- !app_assoc.
Qed.

(** When the result of the install script cannot be submitted, the job ends
    with that error and one script only was executed: the post-install script
    is not run. *)
Lemma InstallSoftware_report_failure_stops_the_job installer w result e :
  let r := InstallSoftware installer w in
  let new := newEvents w r.2 in
  head (savedOf new) = Some (result, Some e) ->
  r.1 = Some (fmtWrap "save script result: " e) /\ length (execsOf new) = 1%nat.
Proof.
  intros r new Hsave. subst r new.
  destruct (InstallSoftware_newEvents installer w) as [Hrun _].
  destruct Hrun as [ | | | | | | res s1 s2 d p e' evs rerr Hres Hrun1
                   | res s1 s2 d p err evs1 evs2 rerr Hres Hrun1 Hrun2 ];
    try discriminate Hsave.
  - inversion Hrun1 as [e0 He Hevs | o c x t serr He Hevs]; subst evs.
    + discriminate Hsave.
    + injection Hsave as <- ->. by injection He as <-.
  - inversion Hrun1 as [e0 He Hevs | o c x t serr He Hevs]; subst evs1.
    destruct serr; [discriminate He | discriminate Hsave].
Qed.

(** C4, as the code has it: once the installer was fetched, whatever happens
    to the two scripts, the last call of the job removes the directory that
    [tempDirFn] gave, and removes nothing before, so that directory is gone
    when the removal takes effect; on the exits taken before a directory was
    asked for, nothing is removed. *)
Theorem InstallSoftware_cleanup_follows_installer_fetch installer w :
  let r := InstallSoftware installer w in
  let new := newEvents w r.2 in
  (forall d p, EvGetInstaller (SoftwareId installer) d (inl p) ∈ new ->
     (exists pre rerr,
        new = pre ++ [EvRemoveAll d rerr] /\ removedOf pre = [] /\ EvTempDir d ∈ pre) /\
     (forall dirExists : string -> E -> bool,
        (forall x e0,
           dirExists x (default os_RemoveAll (removeAllFn (runner w)) x e0).2 = false) ->
        dirExists d (env r.2) = false)) /\
  ((forall d, EvTempDir d ∉ new) -> removedOf new = []).
Proof.
  intros r new. subst r new.
  destruct (InstallSoftware_newEvents installer w) as [Hrun Hrm].
  revert Hrun Hrm. generalize (InstallSoftware installer w).
  intros [result w'] Hrun Hrm. cbn [fst snd] in *.
  assert (forall s p err evs, ScriptRun s p err evs -> removedOf evs = []) as Hnone.
  { by intros s p err evs [e | o c x t serr]. }
  assert (forall s p err evs d q,
            ScriptRun s p err evs -> EvGetInstaller (SoftwareId installer) d (inl q) ∉ evs)
    as Hnofetch.
  { intros s p err evs d q [e | o c x t serr] Hin;
      repeat (apply elem_of_cons in Hin as [[=] | Hin]); inversion Hin. }
  destruct Hrun as [ | | | | | | res s1 s2 d0 p0 e evs rerr Hres Hrun1
                   | res s1 s2 d0 p0 err evs1 evs2 rerr Hres Hrun1 Hrun2 ].
  1-6: split;
       [ intros d' p' Hin; exfalso;
         repeat (apply elem_of_cons in Hin as [[=] | Hin]); inversion Hin
       | intros _; reflexivity ].
  - split.
    + intros d p Hin.
      assert (d = d0) as ->.
      { repeat (apply elem_of_cons in Hin as [Heq | Hin]; try discriminate Heq).
        - by injection Heq.
        - apply elem_of_app in Hin as [Hin | Hin];
            [by apply (Hnofetch _ _ _ _ _ _ Hrun1) in Hin|].
          apply list_elem_of_singleton in Hin. discriminate Hin. }
      split.
      * exists ([EvQuery (PreInstallCondition installer) (inl res);
                   EvGetHostScript (InstallScript installer) (inl s1);
                   EvGetHostScript (PostInstallScript installer) (inl s2);
                   EvTempDir d0;
                   EvGetInstaller (SoftwareId installer) d0 (inl p0)] ++ evs), rerr.
        split; [by rewrite <- !app_assoc|].
        split; [|by in_list].
        unfold removedOf in *. by rewrite omap_app, (Hnone _ _ _ _ Hrun1).
      * intros dirExists Hgone.
        destruct (Hrm d0 rerr) as [e0 He0]; [by rewrite !app_assoc, last_snoc|].
        specialize (Hgone d0 e0). by rewrite He0 in Hgone.
    + intros Hno. exfalso. apply (Hno d0).
      by in_list.
  - split.
    + intros d p Hin.
      assert (d = d0) as ->.
      { repeat (apply elem_of_cons in Hin as [Heq | Hin]; try discriminate Heq).
        - by injection Heq.
        - apply elem_of_app in Hin as [Hin | Hin];
            [by apply (Hnofetch _ _ _ _ _ _ Hrun1) in Hin|].
          apply elem_of_app in Hin as [Hin | Hin];
            [by apply (Hnofetch _ _ _ _ _ _ Hrun2) in Hin|].
          apply list_elem_of_singleton in Hin. discriminate Hin. }
      split.
      * exists ([EvQuery (PreInstallCondition installer) (inl res);
                   EvGetHostScript (InstallScript installer) (inl s1);
                   EvGetHostScript (PostInstallScript installer) (inl s2);
                   EvTempDir d0;
                   EvGetInstaller (SoftwareId installer) d0 (inl p0)] ++ evs1 ++ evs2), rerr.
        split; [by rewrite <- !app_assoc|].
        split; [|by in_list].
        unfold removedOf in *.
        by rewrite !omap_app, (Hnone _ _ _ _ Hrun1), (Hnone _ _ _ _ Hrun2).
      * intros dirExists Hgone.
        destruct (Hrm d0 rerr) as [e0 He0]; [by rewrite !app_assoc, last_snoc|].
        specialize (Hgone d0 e0). by rewrite He0 in Hgone.
    + intros Hno. exfalso. apply (Hno d0).
      by in_list.
Qed.

End Runner.

(** *** The runner run against the doubles *)

#[local] Existing Instance osDouble.

(** On the machine of the doubles a removal leaves nothing at the path. *)
Lemma osDouble_RemoveAll_takes_effect (path : string) (m : Machine) :
  pathExists path (os_RemoveAll path m).2 = false.
Proof.
  unfold pathExists. cbn. apply bool_decide_eq_false.
  intros Hin. apply list_elem_of_filter in Hin as [Hunder _].
  unfold under in Hunder. by rewrite bool_decide_eq_true_2 in Hunder.
Qed.

(** C3, at a script that cannot be launched: writing the script and submitting
    the result succeed, the execution strategy returns the error
    [cannotLaunch] both times, and yet no error is raised; the error is
    dropped, the results are submitted with the exit code [-1], and the
    post-install script is run after the install script. *)
Theorem runInstallerScript_drops_launch_error :
  let w := startWith (runnerDouble (inl oneRow) true None)
             (machine "" (-1) (Some cannotLaunch)) in
  let script := mkHostScriptResult 7 "install" "echo install" in
  let one := runInstallerScript script "/tmp/pkg" w in
  let r := InstallSoftware job w in
  (one.1 = None /\
   execsOf (events one.2) = [("/tmp/pkg/7", "", -1, Some cannotLaunch)]) /\
  (r.1 = None /\
   execsOf (events r.2) = [("/tmp/pkg/7", "", -1, Some cannotLaunch);
                           ("/tmp/pkg/12", "", -1, Some cannotLaunch)] /\
   savedOf (events r.2) = [(mkPayload "install" "" 2 (-1), None);
                           (mkPayload "post-install" "" 2 (-1), None)]).
Proof.
  cbv zeta. split; [split | split; [|split]]; vm_compute; reflexivity.
Qed.

(** C4 fails on the exits taken before the removal is deferred: when the
    precondition says skip, and when the installer cannot be fetched after the
    directory was obtained, the job removes nothing and the directory is there
    when the job is over. *)
Lemma InstallSoftware_early_exits_remove_nothing :
  let skip := InstallSoftware job
                (startWith (runnerDouble (inl noRows) true None) (machine "" 0 None)) in
  let nofetch := InstallSoftware job
                   (startWith (runnerDouble (inl oneRow) false None) (machine "" 0 None)) in
  (skip.1 = None /\
   removedOf (events skip.2) = [] /\
   pathExists "/tmp" (env skip.2) = true) /\
  (nofetch.1 = Some (errorString "installer not found") /\
   EvTempDir "/tmp" ∈ events nofetch.2 /\
   removedOf (events nofetch.2) = [] /\
   pathExists "/tmp" (env nofetch.2) = true).
Proof.
  cbv zeta. split; [split; [|split] | split; [|split; [|split]]];
    try (vm_compute; reflexivity).
  vm_compute. in_list.
Qed.

(** C8 at the doubles: no rows, no error. *)
Lemma InstallSoftware_skips_on_empty_result_witness :
  (InstallSoftware job
     (startWith (runnerDouble (inl noRows) true None) (machine "" 0 None))).1 = None.
Proof.
  exact (proj1 (InstallSoftware_skips_on_empty_result job
                  (startWith (runnerDouble (inl noRows) true None) (machine "" 0 None))
                  noRows (machine "" 0 None) eq_refl eq_refl eq_refl)).
Defined.

(** C7 at the doubles: both scripts end with exit code 3; the job returns nil,
    the server holds both results with that exit code, in order, and the
    post-install script was executed after the install script. *)
Lemma InstallSoftware_nonzero_exit_is_data_witness :
  let w := startWith (runnerDouble (inl oneRow) true None) (machine "done" 3 None) in
  let r := InstallSoftware job w in
  r.1 = None /\
  submitted (env r.2) = [mkPayload "install" "done" 2 3; mkPayload "post-install" "done" 2 3] /\
  execsOf (events r.2) = [("/tmp/pkg/7", "done", 3, None); ("/tmp/pkg/12", "done", 3, None)].
Proof.
  cbv zeta.
  set (m := machine "done" 3 None).
  pose (r1 := mkPayload "install" "done" 2 3).
  pose (r2 := mkPayload "post-install" "done" 2 3).
  pose (m5 := later m ["/tmp"; "/tmp/pkg"] 0 []).
  pose (m6 := later m ["/tmp"; "/tmp/pkg"; "/tmp/pkg/7"] 0 []).
  pose (m8 := later m ["/tmp"; "/tmp/pkg"; "/tmp/pkg/7"] 2500000000 []).
  pose (m10 := later m ["/tmp"; "/tmp/pkg"; "/tmp/pkg/7"] 2500000000 [r1]).
  pose (m11 := later m ["/tmp"; "/tmp/pkg"; "/tmp/pkg/7"; "/tmp/pkg/12"] 2500000000 [r1]).
  pose (m13 := later m ["/tmp"; "/tmp/pkg"; "/tmp/pkg/7"; "/tmp/pkg/12"] 5000000000 [r1]).
  pose (m15 := later m ["/tmp"; "/tmp/pkg"; "/tmp/pkg/7"; "/tmp/pkg/12"] 5000000000 [r1; r2]).
  pose (m16 := later m [] 5000000000 [r1; r2]).
  destruct (InstallSoftware_nonzero_exit_is_data job
              (startWith (runnerDouble (inl oneRow) true None) m) oneRow
              installScriptDouble postInstallScriptDouble "/tmp" "/tmp/pkg" m5
              "done" 3 r1 m10)
    as (_ & _ & Hall).
  - exists m, m, m, m. split; [reflexivity|]. split; [split; [reflexivity | discriminate]|].
    split; [reflexivity|]. split; [reflexivity|]. split; vm_compute; reflexivity.
  - exists m6, 0, m6, m8, 2500000000, m8.
    split; [|split; [|split; [|split; [|split]]]]; vm_compute; reflexivity.
  - discriminate.
  - rewrite (Hall "done" 3 None r2 m15 None m16).
    + split; [reflexivity|]. split; vm_compute; reflexivity.
    + exists m11, 2500000000, m11, m13, 5000000000, m13.
      split; [|split; [|split; [|split; [|split]]]]; vm_compute; reflexivity.
    + vm_compute. reflexivity.
Defined.

(** C4 as amended, at the doubles: after a job that fetched its installer the
    directory is gone. *)
Lemma InstallSoftware_cleanup_follows_installer_fetch_witness :
  pathExists "/tmp"
    (env (InstallSoftware job
            (startWith (runnerDouble (inl oneRow) true None) (machine "done" 3 None))).2)
  = false.
Proof.
  destruct (InstallSoftware_cleanup_follows_installer_fetch job
              (startWith (runnerDouble (inl oneRow) true None) (machine "done" 3 None)))
    as [H _].
  destruct (H "/tmp" "/tmp/pkg") as [_ Hgone].
  - vm_compute. in_list.
  - apply (Hgone pathExists). intros x e0. apply osDouble_RemoveAll_takes_effect.
Defined.

(** *** More on the runner *)

Section RunnerSteps.

Context {E : Type} `{!OS E}.

Implicit Types (w : World E) (script : HostScriptResult) (installer : OrbitSoftwareInstaller).

(** [preConditionCheck] makes the query and nothing else; it says proceed
    exactly when the query came back with status zero and at least one row, and
    returns an error exactly when the query failed or came back with another
    status, whatever rows came with it. *)
Theorem preConditionCheck_verdict (query : string) w :
  let r := preConditionCheck query w in
  let res := (Query (OsqueryClient (runner w)) query (env w)).1 in
  newEvents w r.2 = [EvQuery query res] /\
  runner r.2 = runner w /\
  (r.1.1 = true <->
     exists resp, res = inl resp /\ Code (Status resp) = 0 /\ Response resp <> []) /\
  (is_Some r.1.2 <->
     (exists e, res = inr e) \/ (exists resp, res = inl resp /\ Code (Status resp) <> 0)) /\
  (r.1.1 = true -> r.1.2 = None).
Proof.
  intros r res. subst r res.
  unfold preConditionCheck, bind, call, getRunner, ret.
  destruct (Query _ _ _) as [[resp|e] e1]; cbn [fst snd events runner env].
  - destruct (Z.eqb_spec (Code (Status resp)) 0) as [Hcode|Hcode]; cbn [negb].
    + destruct (Response resp) as [|row rows] eqn:Hrows;
        cbn [length Nat.ltb Nat.leb fst snd ctxerr_Wrap runner events];
        (split; [by erewrite newEvents_app by reflexivity|]); (split; [done|]).
      * split; [split; [done | by intros (? & [= <-] & _ & ?)]|].
        split; [|done]. split; [by intros [? [=]]|].
        by intros [[? [=]] | (? & [= <-] & ?)].
      * split; [split; [intros _; exists resp; by rewrite Hrows | done]|].
        split; [|done]. split; [by intros [? [=]]|].
        by intros [[? [=]] | (? & [= <-] & ?)].
    + cbn [fst snd ctxerr_Wrap runner events].
      split; [by erewrite newEvents_app by reflexivity|]. split; [done|].
      split; [split; [done | by intros (? & [= <-] & ? & _)]|].
      split; [|done]. split; [|by eexists]. intros _. right. by exists resp.
  - cbn [ctxerr_Wrap].
    split; [by erewrite newEvents_app by reflexivity|]. split; [done|].
    split; [split; [done | by intros (? & [=] & _)]|].
    split; [|done]. split; [|by eexists]. intros _. left. by exists e.
Qed.

(** [runInstallerScript] returns an error exactly when writing the script or
    submitting its result failed (that the script could not be launched is
    not among the causes), and a failed write means that nothing was executed
    and nothing submitted. *)
Theorem runInstallerScript_error_iff script installerPath w :
  let r := runInstallerScript script installerPath w in
  let new := newEvents w r.2 in
  (is_Some r.1 <-> existsb writeFailed new || existsb saveFailed new = true) /\
  (existsb writeFailed new = true -> execsOf new = [] /\ savedOf new = []).
Proof.
  intros r new. subst r new.
  destruct (runInstallerScript_ScriptRun script installerPath w) as (new & Hev & Hrun & _).
  rewrite (newEvents_app _ _ _ Hev).
  split; [by apply (ScriptRun_error_iff script installerPath)|].
  by destruct Hrun as [e | out code xerr t serr].
Qed.

(** When the script is written, [runInstallerScript] reads the clock,
    executes the script at the path it was written to, reads the clock again
    and submits one result: the script's execution id, the output and exit
    code of that execution, and the whole seconds it took.  It returns the
    server's answer to that submission, wrapped when it is an error, whatever
    the execution returned; the outside is left as the submission left it and
    the three calls are logged. *)
Theorem runInstallerScript_reports_the_execution script installerPath w
    e1 start e2 out code xerr e3 stop e4 serr e5 :
  let scriptPath := scriptPathOf script installerPath in
  let execCmd := default scripts_ExecCmd (execCmdFn (runner w)) in
  let result := mkPayload (ExecutionID script) out (seconds (stop - start)) code in
  os_WriteFile scriptPath (ScriptContents script) (env w) = (None, e1) ->
  time_Now e1 = (start, e2) ->
  execCmd scriptPath e2 = ((out, code, xerr), e3) ->
  time_Now e3 = (stop, e4) ->
  SaveHostScriptResult (OrbitClient (runner w)) result e4 = (serr, e5) ->
  runInstallerScript script installerPath w
  = (option_map (fmtWrap "save script result: ") serr,
     mkWorld
       (mkRunner (OsqueryClient (runner w)) (OrbitClient (runner w)) (tempDirFn (runner w))
          (Some execCmd) (removeAllFn (runner w)))
       e5
       (events w ++ [EvWriteFile scriptPath (ScriptContents script) None;
                     EvExecCmd scriptPath out code xerr;
                     EvSaveHostScriptResult result serr])).
Proof.
  intros scriptPath execCmd result Hw Hs Hx Ht Hsave.
  apply runInstallerScript_steps.
  by exists e1, start, e2, e3, stop, e4.
Qed.

(** When the precondition query fails or comes back with a status other than
    zero, [InstallSoftware] returns an error and the query is the one call it
    made. *)
Theorem InstallSoftware_precondition_error installer w res e' :
  Query (OsqueryClient (runner w)) (PreInstallCondition installer) (env w) = (res, e') ->
  match res with
  | inr _ => True
  | inl resp => Code (Status resp) <> 0
  end ->
  let r := InstallSoftware installer w in
  is_Some r.1 /\
  newEvents w r.2 = [EvQuery (PreInstallCondition installer) res] /\
  env r.2 = e'.
Proof.
  intros HQ Hres r. subst r.
  unfold InstallSoftware, preConditionCheck, bind, call, getRunner, ret.
  rewrite HQ. cbn [fst snd events runner env].
  destruct res as [resp|e].
  - destruct (Z.eqb_spec (Code (Status resp)) 0) as [Hcode|Hcode]; [done|].
    cbn [negb ctxerr_Wrap fst snd env].
    split; [by eexists|]. split; [|done]. by erewrite newEvents_app by reflexivity.
  - cbn [ctxerr_Wrap fst snd env].
    split; [by eexists|]. split; [|done]. by erewrite newEvents_app by reflexivity.
Qed.

(** A job that ends with the nil error either executed nothing, submitted
    nothing and removed nothing, or executed both scripts, submitted both
    results without error and removed the directory once. *)
Theorem InstallSoftware_nil_is_skip_or_complete installer w :
  let r := InstallSoftware installer w in
  let new := newEvents w r.2 in
  r.1 = None ->
  (execsOf new = [] /\ savedOf new = [] /\ removedOf new = []) \/
  (length (execsOf new) = 2%nat /\
   (exists result1 result2, savedOf new = [(result1, None); (result2, None)]) /\
   length (removedOf new) = 1%nat).
Proof.
  intros r new Hnil. subst r new.
  destruct (InstallSoftware_newEvents installer w) as [Hrun _].
  rewrite Hnil in Hrun. clear Hnil.
  inversion Hrun as [ | | res Hc Hr | | | | res s1 s2 d p e evs rerr Hres Hrun1
                    | res s1 s2 d p err evs1 evs2 rerr Hres Hrun1 Hrun2 ].
  - by left.
  - right.
    inversion Hrun1 as [e0 He Hevs | o c x t serr He Hevs]; subst evs1.
    destruct serr as [e1|]; [discriminate He|].
    inversion Hrun2 as [e0 He2 Hevs2 | o2 c2 x2 t2 serr2 He2 Hevs2]; subst evs2.
    destruct serr2 as [e2|]; [discriminate He2|].
    split; [done|]. split; [by eexists _, _ | done].
Qed.

(** Every execution attempt is reported: the results submitted are, in order,
    the outputs and exit codes of the executions. *)
Theorem InstallSoftware_reports_every_execution installer w :
  let new := newEvents w (InstallSoftware installer w).2 in
  map (fun x => (x.1.1.2, x.1.2)) (execsOf new)
  = map (fun y => (Output y.1, ExitCode y.1)) (savedOf new).
Proof.
  intros new. subst new.
  destruct (InstallSoftware_newEvents installer w) as [Hrun _].
  destruct Hrun as [ | | | | | | res s1 s2 d p e evs rerr Hres Hrun1
                   | res s1 s2 d p err evs1 evs2 rerr Hres Hrun1 Hrun2 ];
    try done.
  - by destruct Hrun1.
  - by destruct Hrun1, Hrun2.
Qed.

(** A fetch that fails ends the job with the error of that fetch, unwrapped;
    nothing is executed, submitted or removed. *)
Theorem InstallSoftware_fetch_failure_ends_the_job installer w ev e :
  let r := InstallSoftware installer w in
  let new := newEvents w r.2 in
  ev ∈ new ->
  fetchError ev = Some e ->
  r.1 = Some e /\ execsOf new = [] /\ savedOf new = [] /\ removedOf new = [].
Proof.
  intros r new Hin Hfetch. subst r new.
  destruct (InstallSoftware_newEvents installer w) as [Hrun _].
  assert (forall s p err evs, ScriptRun s p err evs -> ev ∉ evs) as Hscript.
  { intros s p err evs [e0 | o c x t serr] Hev;
      repeat (apply elem_of_cons in Hev as [-> | Hev]; [discriminate Hfetch|]);
      inversion Hev. }
  destruct Hrun as [ | | | | | | res s1 s2 d p e0 evs rerr Hres Hrun1
                   | res s1 s2 d p err evs1 evs2 rerr Hres Hrun1 Hrun2 ].
  1-6: repeat (apply elem_of_cons in Hin as [-> | Hin];
               [first [discriminate Hfetch | by injection Hfetch as ->]|]);
       inversion Hin.
  - exfalso. cbn [app] in Hin.
    repeat (apply elem_of_cons in Hin as [-> | Hin]; [discriminate Hfetch|]).
    apply elem_of_app in Hin as [Hin | Hin]; [by apply (Hscript _ _ _ _ Hrun1)|].
    apply list_elem_of_singleton in Hin as ->. discriminate Hfetch.
  - exfalso. cbn [app] in Hin.
    repeat (apply elem_of_cons in Hin as [-> | Hin]; [discriminate Hfetch|]).
    apply elem_of_app in Hin as [Hin | Hin]; [by apply (Hscript _ _ _ _ Hrun1)|].
    apply elem_of_app in Hin as [Hin | Hin]; [by apply (Hscript _ _ _ _ Hrun2)|].
    apply list_elem_of_singleton in Hin as ->. discriminate Hfetch.
Qed.

Lemma filled_refl {A : Type} (dflt : A) (o : option A) : filled dflt o o.
Proof. by left. Qed.

Lemma filled_default {A : Type} (dflt : A) (o : option A) :
  filled dflt o (Some (default dflt o)).
Proof. destruct o; [by left | by right]. Qed.

Lemma filled_trans {A : Type} (dflt : A) (a b c : option A) :
  filled dflt a b -> filled dflt b c -> filled dflt a c.
Proof.
  intros [-> | [-> ->]] [-> | [Hb ->]]; try (by left); try (by right).
Qed.

Lemma keepsRunner_refl (r : Runner E) : keepsRunner r r.
Proof. repeat split; apply filled_refl. Qed.

Lemma keepsRunner_trans (a b c : Runner E) :
  keepsRunner a b -> keepsRunner b c -> keepsRunner a c.
Proof.
  intros (Hq & Ho & Ht & Hx & Hr) (Hq' & Ho' & Ht' & Hx' & Hr').
  split; [congruence|]. split; [congruence|].
  repeat split; eapply filled_trans; eassumption.
Qed.

Lemma runInstallerScript_keepsRunner script installerPath w :
  keepsRunner (runner w) (runner (runInstallerScript script installerPath w).2).
Proof.
  unfold runInstallerScript, bind, call, now, getRunner, setRunner, ret.
  destruct (os_WriteFile _ _ _) as [[e|] e1]; cbn [fst snd events runner env];
    [apply keepsRunner_refl|].
  destruct (time_Now e1) as [start e2]. cbn [fst snd events runner env execCmdFn].
  destruct (default scripts_ExecCmd (execCmdFn (runner w)) _ e2) as [[[out code] xerr] e3].
  cbn [fst snd events runner env].
  destruct (time_Now e3) as [stop e4]. cbn [fst snd events runner env OrbitClient].
  destruct (SaveHostScriptResult _ _ e4) as [[e|] e5]; cbn [fst snd runner];
    (repeat split; cbn; first [apply filled_refl | apply filled_default]).
Qed.

(** [InstallSoftware] never replaces a function the runner was given: after
    the job the two clients are the same, and each function field is as it
    was, or was nil and now holds the default of the operating system. *)
Theorem InstallSoftware_keeps_the_runner installer w :
  keepsRunner (runner w) (runner (InstallSoftware installer w).2).
Proof.
  unfold InstallSoftware, preConditionCheck, bind, call, getRunner, setRunner, ret.
  destruct (Query _ _ _) as [[res|e] e1]; cbn [fst snd events runner env];
    [|apply keepsRunner_refl].
  destruct (negb (Code (Status res) =? 0)); [apply keepsRunner_refl|].
  destruct (0 <? length (Response res))%nat; cbn [negb fst snd]; [|apply keepsRunner_refl].
  cbn [fst snd events runner env OrbitClient].
  destruct (GetHostScript _ (InstallScript installer) _) as [[s1|e] e2];
    cbn [fst snd events runner env]; [|apply keepsRunner_refl].
  destruct (GetHostScript _ (PostInstallScript installer) _) as [[s2|e] e3];
    cbn [fst snd events runner env]; [|apply keepsRunner_refl].
  destruct (default os_TempDir (tempDirFn (runner w)) e3) as [d e4].
  cbn [fst snd events runner env OrbitClient].
  assert (keepsRunner (runner w)
            (mkRunner (OsqueryClient (runner w)) (OrbitClient (runner w))
               (Some (default os_TempDir (tempDirFn (runner w))))
               (execCmdFn (runner w)) (removeAllFn (runner w)))) as H0.
  { repeat split; cbn; first [apply filled_refl | apply filled_default]. }
  destruct (GetInstaller _ _ d e4) as [[p|e] e5]; cbn [fst snd events runner env];
    [|exact H0].
  assert (forall r : Runner E,
            keepsRunner r
              (mkRunner (OsqueryClient r) (OrbitClient r) (tempDirFn r) (execCmdFn r)
                 (Some (default os_RemoveAll (removeAllFn r))))) as Hrm.
  { intros r. repeat split; cbn; first [apply filled_refl | apply filled_default]. }
  unfold defer, removeTmpDir, bind, call, getRunner, setRunner, ret.
  match goal with |- context [runInstallerScript s1 p ?w5] =>
    pose proof (runInstallerScript_keepsRunner s1 p w5) as H1;
    destruct (runInstallerScript s1 p w5) as [[e|] w6] end;
    cbn [fst snd events runner env] in *.
  - destruct (default os_RemoveAll (removeAllFn (runner w6)) d (env w6)) as [rerr e7].
    cbn [fst snd runner].
    eapply keepsRunner_trans; [exact H0|]. eapply keepsRunner_trans; [exact H1|]. apply Hrm.
  - match goal with |- context [runInstallerScript s2 p ?w7] =>
      pose proof (runInstallerScript_keepsRunner s2 p w7) as H2;
      destruct (runInstallerScript s2 p w7) as [err w8] end;
      cbn [fst snd events runner env] in *.
    destruct err;
      destruct (default os_RemoveAll (removeAllFn (runner w8)) d (env w8)) as [rerr e9];
      cbn [fst snd runner];
      (eapply keepsRunner_trans; [exact H0|]; eapply keepsRunner_trans; [exact H1|];
       eapply keepsRunner_trans; [exact H2|]; apply Hrm).
Qed.

End RunnerSteps.

(** *** The runner's steps run against the doubles *)

Lemma runInstallerScript_reports_the_execution_witness :
  let m := later (machine "done" 3 None) ["/tmp"; "/tmp/pkg"] 0 [] in
  let r := runInstallerScript installScriptDouble "/tmp/pkg"
             (startWith (runnerDouble (inl oneRow) true None) m) in
  r.1 = None /\
  submitted (env r.2) = [mkPayload "install" "done" 2 3] /\
  pathExists "/tmp/pkg/7" (env r.2) = true.
Proof.
  cbv zeta.
  set (m := later (machine "done" 3 None) ["/tmp"; "/tmp/pkg"] 0 []).
  pose (m1 := later m ["/tmp"; "/tmp/pkg"; "/tmp/pkg/7"] 0 []).
  pose (m3 := later m ["/tmp"; "/tmp/pkg"; "/tmp/pkg/7"] 2500000000 []).
  pose (m5 := later m ["/tmp"; "/tmp/pkg"; "/tmp/pkg/7"] 2500000000
                [mkPayload "install" "done" 2 3]).
  rewrite (runInstallerScript_reports_the_execution installScriptDouble "/tmp/pkg"
             (startWith (runnerDouble (inl oneRow) true None) m)
             m1 0 m1 "done" 3 None m3 2500000000 m3 None m5).
  - split; [reflexivity|]. split; vm_compute; reflexivity.
  - vm_compute. reflexivity.
  - vm_compute. reflexivity.
  - vm_compute. reflexivity.
  - vm_compute. reflexivity.
  - vm_compute. reflexivity.
Defined.

Lemma InstallSoftware_report_failure_stops_the_job_witness :
  let w := startWith (runnerDouble (inl oneRow) true (Some serverDown))
             (machine "done" 0 None) in
  length (execsOf (newEvents w (InstallSoftware job w).2)) = 1%nat.
Proof.
  cbv zeta.
  refine (proj2 (InstallSoftware_report_failure_stops_the_job job
                   (startWith (runnerDouble (inl oneRow) true (Some serverDown))
                      (machine "done" 0 None))
                   (mkPayload "install" "done" 2 0) serverDown _)).
  vm_compute. reflexivity.
Defined.

Lemma InstallSoftware_precondition_error_witness :
  is_Some (InstallSoftware job
             (startWith (runnerDouble (inl (mkQueryResponse (mkStatus 1 "no such table") []))
                           true None)
                (machine "" 0 None))).1.
Proof.
  refine (proj1 (InstallSoftware_precondition_error job
                   (startWith (runnerDouble
                                 (inl (mkQueryResponse (mkStatus 1 "no such table") []))
                                 true None)
                      (machine "" 0 None))
                   (inl (mkQueryResponse (mkStatus 1 "no such table") []))
                   (machine "" 0 None) eq_refl _)).
  cbn. discriminate.
Defined.

Lemma InstallSoftware_nil_is_skip_or_complete_witness :
  let w := startWith (runnerDouble (inl oneRow) true None) (machine "done" 3 None) in
  length (removedOf (newEvents w (InstallSoftware job w).2)) = 1%nat.
Proof.
  cbv zeta.
  destruct (InstallSoftware_nil_is_skip_or_complete job
              (startWith (runnerDouble (inl oneRow) true None) (machine "done" 3 None)))
    as [(H & _) | (_ & _ & H)].
  - vm_compute. reflexivity.
  - vm_compute in H. discriminate H.
  - exact H.
Defined.

Lemma InstallSoftware_fetch_failure_ends_the_job_witness :
  (InstallSoftware job
     (startWith (runnerDouble (inl oneRow) false None) (machine "" 0 None))).1
  = Some (errorString "installer not found").
Proof.
  refine (proj1 (InstallSoftware_fetch_failure_ends_the_job job
                   (startWith (runnerDouble (inl oneRow) false None) (machine "" 0 None))
                   (EvGetInstaller "pkg" "/tmp" (inr (errorString "installer not found")))
                   (errorString "installer not found") _ eq_refl)).
  vm_compute. in_list.
Defined.

End InstallerFacts.

(** ** Facts: the config receivers *)

Module OrbitClientFacts.

Import OrbitClient.

Lemma error_eqb_refl (e : error) : error_eqb e e = true.
Proof.
  induction e as [m | m c IH | m c IH | es IH | f c IH] using error_ind; cbn.
  - by apply bool_decide_eq_true_2.
  - rewrite IH. by rewrite bool_decide_eq_true_2.
  - rewrite IH. by rewrite bool_decide_eq_true_2.
  - induction IH as [|x l Hx _ IHl]; [done|]. by rewrite Hx, IHl.
  - rewrite bool_decide_eq_true_2 by done. by destruct c.
Qed.

Lemma errors_Is_refl (e : error) : errors_Is e e = true.
Proof. destruct e; cbn [errors_Is]; by rewrite error_eqb_refl. Qed.

(** [errors.Is] finds every element of a joined error. *)
Lemma errors_Is_join (errs : list error) (e : error) :
  e ∈ errs -> errors_Is (joinError errs) e = true.
Proof.
  intros Hin. cbn. apply orb_true_iff. right.
  induction Hin as [x l | x y l _ IH].
  - by rewrite errors_Is_refl.
  - rewrite IH. by rewrite orb_true_r.
Qed.

Section ReceiverFacts.

Context {S Config : Type}.

Implicit Types (crs : list (Receiver S Config)) (w : World S Config) (cfg : Config).

(** The loop calls each receiver once, in order, with the configuration it
    was given, each on the state the one before left, and returns the failures
    in that order after those it started with. *)
Lemma runFrom_spec crs : forall i cfg errs w,
  exists new,
    invocations (runFrom i crs cfg errs w).2 = invocations w ++ new /\
    Ran cfg i crs (st w) new (st (runFrom i crs cfg errs w).2) /\
    map (fun inv => (position inv, given inv)) new
    = map (fun k => (k, cfg)) (seq i (length crs)) /\
    (runFrom i crs cfg errs w).1 = errs ++ omap returned new.
Proof.
  induction crs as [|cr rest IH]; intros i cfg errs w.
  - exists []. cbn. rewrite !app_nil_r. split; [done|]. split; [constructor | done].
  - cbn [runFrom]. unfold bind, run.
    destruct (cr cfg (st w)) as [err s'] eqn:Hcr.
    match goal with |- context [runFrom (Datatypes.S i) rest cfg ?errs' ?w'] =>
      destruct (IH (Datatypes.S i) cfg errs' w') as (new & Hinv & Hran & Hpos & Hres) end.
    cbn [invocations st] in Hinv, Hran.
    exists (mkInvocation i cfg err :: new).
    rewrite Hinv, Hres. split; [by rewrite <- app_assoc|].
    split; [by econstructor|].
    split; [cbn; by rewrite Hpos|].
    destruct err; cbn; [by rewrite <- app_assoc | done].
Qed.

(** The state a fan-out leaves is the one the receivers build, each from the
    state the one before left. *)
Lemma Ran_state cfg i crs s (invs : list (Invocation Config)) s' :
  Ran cfg i crs s invs s' -> s' = fold_left (fun s0 cr => (cr cfg s0).2) crs s.
Proof.
  induction 1 as [|i cr rest s s1 s2 err invs Hcr _ IH]; [done|].
  cbn [fold_left]. by rewrite Hcr.
Qed.

(** C9, of the model written from the spec: [RunConfigReceivers] calls every
    registered receiver once, in registration order, each with the same
    configuration and on the state the one before left, whatever the earlier
    ones returned, and logs what each returned; it returns nil exactly when
    every receiver returned nil, and otherwise the join of the errors the
    receivers returned, those very values in that order, so that [errors.Is]
    finds in it the error of every receiver that failed. *)
Theorem RunConfigReceivers_runs_all_and_joins (oc : OrbitClient S Config) cfg w :
  let r := RunConfigReceivers oc cfg w in
  let new := newInvocations w r.2 in
  invocations r.2 = invocations w ++ new /\
  Ran cfg 0 (ConfigReceivers oc) (st w) new (st r.2) /\
  map (fun inv => (position inv, given inv)) new
  = map (fun k => (k, cfg)) (seq 0 (length (ConfigReceivers oc))) /\
  r.1 = match omap returned new with
        | [] => None
        | errs => Some (joinError errs)
        end /\
  (r.1 = None <-> Forall (fun inv => returned inv = None) new) /\
  (forall inv e, inv ∈ new -> returned inv = Some e ->
     exists agg, r.1 = Some agg /\ errors_Is agg e = true).
Proof.
  intros r new. subst r new. unfold RunConfigReceivers, bind, newInvocations.
  destruct (runFrom_spec (ConfigReceivers oc) 0 cfg [] w)
    as (new & Hinv & Hran & Hpos & Hres).
  destruct (runFrom 0 (ConfigReceivers oc) cfg [] w) as [errs w'].
  cbn [fst snd app] in *. subst errs.
  assert (drop (length (invocations w))
            (invocations (match omap returned new with
                          | [] => ret None
                          | _ :: _ => ret (Some (joinError (omap returned new)))
                          end w').2) = new) as ->.
  { destruct (omap returned new); cbn; by rewrite Hinv, drop_app_length. }
  split; [by destruct (omap returned new)|].
  split; [by destruct (omap returned new)|].
  split; [done|].
  split; [by destruct (omap returned new)|].
  split.
  - split.
    + intros Hnone. destruct (omap returned new) as [|e l] eqn:Ho; [|discriminate Hnone].
      apply Forall_forall. intros inv Hin.
      destruct (returned inv) as [e|] eqn:Hr; [|done].
      assert (e ∈ omap returned new) as He by (apply list_elem_of_omap; eauto).
      rewrite Ho in He. inversion He.
    + intros Hall. assert (omap returned new = []) as ->; [|done].
      clear -Hall. induction Hall as [|inv l Hr _ IH]; [done|].
      cbn [omap list_omap]. by rewrite Hr.
  - intros inv e Hin Hr.
    assert (e ∈ omap returned new) as He by (apply list_elem_of_omap; eauto).
    destruct (omap returned new) as [|e0 l] eqn:Ho; [inversion He|].
    exists (joinError (e0 :: l)). split; [done|]. by apply errors_Is_join.
Qed.

End ReceiverFacts.

(** C9 at the client of [TestConfigReceiverErrors]: all four receivers run,
    both flags are set, and the error returned is the join of the two errors,
    in which both are found. *)
Lemma RunConfigReceivers_runs_all_and_joins_witness :
  let r := RunConfigReceivers testClient tt (mkWorld (false, false) []) in
  r.1 = Some (joinError [err1; err2]) /\
  (exists agg, r.1 = Some agg /\ errors_Is agg err1 = true) /\
  (exists agg, r.1 = Some agg /\ errors_Is agg err2 = true) /\
  st r.2 = (true, true).
Proof.
  cbv zeta.
  destruct (RunConfigReceivers_runs_all_and_joins testClient tt (mkWorld (false, false) []))
    as (_ & Hran & _ & Hjoin & _ & H).
  split; [|split; [|split]].
  - exact Hjoin.
  - apply (H (mkInvocation 0 tt (Some err1)) err1); [|reflexivity].
    vm_compute. apply list_elem_of_here.
  - apply (H (mkInvocation 2 tt (Some err2)) err2); [|reflexivity].
    vm_compute. do 2 apply list_elem_of_further. apply list_elem_of_here.
  - exact (Ran_state _ _ _ _ _ _ Hran).
Defined.

End OrbitClientFacts.
